(** * Grocery inventory: a shallow embedding of [src/app.py]

    The application is a Flask program of one file.  Its views are embedded
    here as computations in a small monad that threads the persistent
    world (the two tables and the client's login session), the
    request-scoped SQLAlchemy unit of work, and a log of the effects a view
    performs (table reads and writes, flashed messages).  The behaviour of
    the libraries the views call (Flask-Login, WTForms/Flask-WTF,
    Flask-SQLAlchemy, csv, io) is written out next to the place that uses
    it, with the library's own names.

    Conventions of the model:
    - a Python [str] is a [string]; one [ascii] stands for one character;
    - a Python [int] is a [Z]; a primary key, which SQLite draws from the
      positive integers, and the [<int:item_id>] URL converter, which only
      matches digits, are [N];
    - a Python [float] is a primitive binary64 [float];
    - a table is the list of its rows in rowid order.  It enforces the
      constraints the models declare (primary key, [nullable=False],
      [unique=True]) and the limits of SQLite's storage classes: an
      integer is bound only if it fits 64 bits, and a NaN is stored as
      NULL. *)

From Stdlib Require Import List String Ascii NArith ZArith Bool Lia.
From Stdlib Require Import Floats.PrimFloat DecimalString.
Import ListNotations.
Local Open Scope string_scope.
Local Open Scope list_scope.

Set Implicit Arguments.

(* ===================================================================== *)
(** * Python values *)
(* ===================================================================== *)

Module Py.

(** [str.isspace] on one character (a code point below 256): the
    controls 9 to 13 and 28 to 31, the space, NEL and the no-break
    space. *)
Definition isspace (c : ascii) : bool :=
  let n := nat_of_ascii c in
  ((9 <=? n) && (n <=? 13) || (28 <=? n) && (n <=? 32)
   || (n =? 133) || (n =? 160))%nat.

Fixpoint lstrip (s : string) : string :=
  match s with
  | EmptyString => EmptyString
  | String c s' => if isspace c then lstrip s' else s
  end.

(** [rstrip]: a trailing run of white space is dropped. *)
Fixpoint rstrip (s : string) : string :=
  match s with
  | EmptyString => EmptyString
  | String c s' =>
      match rstrip s' with
      | EmptyString => if isspace c then EmptyString else String c EmptyString
      | r => String c r
      end
  end.

(** [s.strip()] *)
Definition strip (s : string) : string := rstrip (lstrip s).

(** [bool(x)] for the three kinds of field data, and whether the value
    is a [str] that is empty once stripped. *)
Class Data (A : Type) := {
  truth : A -> bool;
  blank_str : A -> bool
}.

#[export] Instance Data_str : Data string := {|
  truth s := negb (s =? "");
  blank_str s := strip s =? ""
|}.

#[export] Instance Data_int : Data Z := {|
  truth z := negb (z =? 0)%Z;
  blank_str _ := false
|}.

(** [bool(x)] of a float is [x != 0.0]: both zeros are false, a NaN is
    true. *)
#[export] Instance Data_float : Data float := {|
  truth x := negb (PrimFloat.eqb x 0%float);
  blank_str _ := false
|}.

(** [str(n)] for an [int]. *)
Definition str_of_int (z : Z) : string := NilZero.string_of_int (Z.to_int z).

(** [a == b] on optional values ([None == None]). *)
Definition eq_opt_str (a b : option string) : bool :=
  match a, b with
  | None, None => true
  | Some x, Some y => x =? y
  | _, _ => false
  end.

End Py.

Import Py.

(* ===================================================================== *)
(** * Models (app.py 27-44) *)
(* ===================================================================== *)

(** [class User(db.Model, UserMixin)] *)
Record User := {
  user_id : N;
  username : string;
  password_hash : string
}.

(** [class Item(db.Model)] *)
Record Item := {
  item_id : N;
  name : string;
  quantity : Z;
  price : float
}.

(** What persists between requests: the two tables of [inventory.db] and
    the user id Flask-Login keeps in the client's session cookie. *)
Record World := {
  User_table : list User;
  Item_table : list Item;
  session_user_id : option N
}.

(* ===================================================================== *)
(** * Effects of a view *)
(* ===================================================================== *)

Inductive table := Users | Items.

Inductive category := success | danger | info | message.

(** The messages the views flash (the emoji suffix is left out). *)
Inductive flash_message :=
| Logged_in_successfully
| Invalid_username_or_password
| You_have_been_logged_out
| Username_already_exists
| Registration_successful
| Item_added_successfully
| Item_updated_successfully
| Item_deleted_successfully
| Please_log_in_to_access_this_page.

Inductive effect :=
| db_read (t : table)
| db_write (t : table)
| flashed (m : flash_message) (c : category).

(** Exceptions that leave a view. *)
Inductive exception :=
| NotFound        (* werkzeug.exceptions.NotFound, raised by get_or_404 *)
| IntegrityError  (* a NOT NULL or UNIQUE constraint fails at commit *)
| OverflowError   (* a Python int too large to convert to SQLite INTEGER *)
| TypeError.      (* an uncaught Python TypeError *)

(** The unit of work of [db.session]: objects added, attribute
    assignments on loaded objects, deletions; all pending until
    [db.session.commit()].  An attribute holds what the view gives it,
    [None] included. *)
Inductive change :=
| new_User (username : option string) (password_hash : option string)
| new_Item (name : option string) (quantity : option Z) (price : option float)
| set_Item_name (id : N) (v : option string)
| set_Item_quantity (id : N) (v : option Z)
| set_Item_price (id : N) (v : option float)
| deleted_Item (id : N).

Record Ctx := {
  world : World;
  pending : list change
}.

Definition M (A : Type) : Type := Ctx -> list effect * Ctx * (exception + A).

Definition ret {A} (a : A) : M A := fun c => ([], c, inr a).

Definition bind {A B} (m : M A) (k : A -> M B) : M B :=
  fun c =>
    match m c with
    | (l, c', inl e) => (l, c', inl e)
    | (l, c', inr a) =>
        match k a c' with
        | (l', c'', r) => (l ++ l', c'', r)
        end
    end.

Definition raise {A} (e : exception) : M A := fun c => ([], c, inl e).

Definition emit (e : effect) : M unit := fun c => ([e], c, inr tt).

Definition get_world : M World := fun c => ([], c, inr (world c)).

Definition put_world (w : World) : M unit :=
  fun c => ([], {| world := w; pending := pending c |}, inr tt).

Definition get_pending : M (list change) := fun c => ([], c, inr (pending c)).

Definition put_pending (p : list change) : M unit :=
  fun c => ([], {| world := world c; pending := p |}, inr tt).

Declare Scope view_scope.
Delimit Scope view_scope with view.
Notation "x <- c1 ;; c2" := (bind c1 (fun x => c2))
  (at level 100, c1 at next level, right associativity) : view_scope.
Notation "c1 ;; c2" := (bind c1 (fun _ => c2))
  (at level 100, right associativity) : view_scope.
Local Open Scope view_scope.

(* ===================================================================== *)
(** * Flask-SQLAlchemy *)
(* ===================================================================== *)

Module db.

(** The rowid SQLite gives a new row of an [INTEGER PRIMARY KEY] table:
    one more than the largest in the table. *)
Definition next_id (ids : list N) : N := N.succ (fold_right N.max 0%N ids).

(** What sqlite3 binds as a statement parameter: a Python [int] that fits
    a signed 64-bit integer; for any other it raises [OverflowError]. *)
Definition bindable_int (z : Z) : bool :=
  (-9223372036854775808 <=? z)%Z && (z <=? 9223372036854775807)%Z.

Definition bindable_id (id : N) : bool := (id <=? 9223372036854775807)%N.

(** What a [Float] column with [nullable=False] takes: SQLite stores a
    NaN as NULL. *)
Definition storable_float (x : float) : bool := negb (PrimFloat.is_nan x).

Definition update_Item (id : N) (f : Item -> Item) (rows : list Item) : list Item :=
  map (fun r => if (item_id r =? id)%N then f r else r) rows.

Definition with_users (w : World) (us : list User) : World :=
  {| User_table := us; Item_table := Item_table w;
     session_user_id := session_user_id w |}.

Definition with_items (w : World) (rows : list Item) : World :=
  {| User_table := User_table w; Item_table := rows;
     session_user_id := session_user_id w |}.

(** One pending change written to the database.  Every column is
    [nullable=False], and [User.username] is [unique=True]; an integer
    that does not fit 64 bits cannot be bound, and a NaN arrives as
    NULL. *)
Definition flush (ch : change) (w : World) : exception + World :=
  match ch with
  | new_User (Some u) (Some h) =>
      match find (fun r => username r =? u) (User_table w) with
      | Some _ => inl IntegrityError
      | None =>
          inr (with_users w (User_table w ++
                 [{| user_id := next_id (map user_id (User_table w));
                     username := u; password_hash := h |}]))
      end
  | new_User _ _ => inl IntegrityError
  | new_Item (Some n) (Some q) (Some p) =>
      if negb (bindable_int q) then inl OverflowError
      else if negb (storable_float p) then inl IntegrityError
      else
        inr (with_items w (Item_table w ++
               [{| item_id := next_id (map item_id (Item_table w));
                   name := n; quantity := q; price := p |}]))
  | new_Item _ _ _ => inl IntegrityError
  | set_Item_name id (Some v) =>
      inr (with_items w (update_Item id (fun r =>
             {| item_id := item_id r; name := v;
                quantity := quantity r; price := price r |}) (Item_table w)))
  | set_Item_name _ None => inl IntegrityError
  | set_Item_quantity id (Some v) =>
      if negb (bindable_int v) then inl OverflowError
      else
        inr (with_items w (update_Item id (fun r =>
               {| item_id := item_id r; name := name r;
                  quantity := v; price := price r |}) (Item_table w)))
  | set_Item_quantity _ None => inl IntegrityError
  | set_Item_price id (Some v) =>
      if negb (storable_float v) then inl IntegrityError
      else
        inr (with_items w (update_Item id (fun r =>
               {| item_id := item_id r; name := name r;
                  quantity := quantity r; price := v |}) (Item_table w)))
  | set_Item_price _ None => inl IntegrityError
  | deleted_Item id =>
      inr (with_items w
             (filter (fun r => negb (item_id r =? id)%N) (Item_table w)))
  end.

Fixpoint flush_all (p : list change) (w : World) : exception + World :=
  match p with
  | [] => inr w
  | ch :: p' =>
      match flush ch w with
      | inl e => inl e
      | inr w' => flush_all p' w'
      end
  end.

(** Whether an attribute assignment changes the value the row holds
    (compared with [==]); an assignment of an equal value is no change
    and sends nothing. *)
Definition changes_row (ch : change) (w : World) : bool :=
  match ch with
  | set_Item_name id v =>
      match find (fun r => (item_id r =? id)%N) (Item_table w), v with
      | Some r, Some x => negb (name r =? x)
      | Some _, None => true
      | None, _ => false
      end
  | set_Item_quantity id v =>
      match find (fun r => (item_id r =? id)%N) (Item_table w), v with
      | Some r, Some x => negb (quantity r =? x)%Z
      | Some _, None => true
      | None, _ => false
      end
  | set_Item_price id v =>
      match find (fun r => (item_id r =? id)%N) (Item_table w), v with
      | Some r, Some x => negb (PrimFloat.eqb (price r) x)
      | Some _, None => true
      | None, _ => false
      end
  | _ => true
  end.

(** The statements a commit sends, as writes to log: an INSERT for each
    new object, a DELETE for each deleted one, and one UPDATE for each
    loaded object with an attribute that changed. *)
Fixpoint statements (p : list change) (w : World) (updated : list N)
  : list effect :=
  match p with
  | [] => []
  | ch :: p' =>
      match ch with
      | new_User _ _ => db_write Users :: statements p' w updated
      | new_Item _ _ _ | deleted_Item _ =>
          db_write Items :: statements p' w updated
      | set_Item_name id _ | set_Item_quantity id _ | set_Item_price id _ =>
          if changes_row ch w && negb (existsb (N.eqb id) updated)
          then db_write Items :: statements p' w (id :: updated)
          else statements p' w updated
      end
  end.

(** [db.session.add(obj)], [obj.attr = v] on a loaded object and
    [db.session.delete(obj)] all register a pending change. *)
Definition session_register (ch : change) : M unit :=
  p <- get_pending ;; put_pending (p ++ [ch]).

(** [db.session.commit()]: the pending changes are written in order; if
    one fails nothing is written and the error is raised. *)
Definition session_commit : M unit :=
  p <- get_pending ;;
  w <- get_world ;;
  put_pending [] ;;
  match flush_all p w with
  | inl e => raise e
  | inr w' =>
      put_world w' ;;
      fun c => (statements p w [], c, inr tt)
  end.

(** [User.query.get(id)] *)
Definition User_query_get (id : N) : M (option User) :=
  emit (db_read Users) ;;
  w <- get_world ;;
  ret (find (fun u => (user_id u =? id)%N) (User_table w)).

(** [User.query.filter_by(username=name).first()] *)
Definition User_query_filter_by_username_first (n : option string)
  : M (option User) :=
  emit (db_read Users) ;;
  w <- get_world ;;
  ret (find (fun r => Py.eq_opt_str (Some (username r)) n) (User_table w)).

(** [Item.query.all()] *)
Definition Item_query_all : M (list Item) :=
  emit (db_read Items) ;;
  w <- get_world ;;
  ret (Item_table w).

(** [Item.query.get_or_404(id)]: the id is bound to the SELECT, which
    fails before it runs when the id does not fit 64 bits. *)
Definition Item_query_get_or_404 (id : N) : M Item :=
  if bindable_id id then
    emit (db_read Items) ;;
    w <- get_world ;;
    match find (fun r => (item_id r =? id)%N) (Item_table w) with
    | Some r => ret r
    | None => raise NotFound
    end
  else raise OverflowError.

End db.

Arguments db.bindable_int : simpl never.
Arguments db.bindable_id : simpl never.
Arguments db.storable_float : simpl never.

(* ===================================================================== *)
(** * Flask-Login *)
(* ===================================================================== *)

(** [@login_manager.user_loader] (app.py 76-78) *)
Definition load_user (uid : N) : M (option User) := db.User_query_get uid.

Module flask_login.

(** [current_user]: the user the loader returns for the id kept in the
    session, if there is one. *)
Definition current_user : M (option User) :=
  w <- get_world ;;
  match session_user_id w with
  | Some uid => load_user uid
  | None => ret None
  end.

(** [current_user.is_authenticated] *)
Definition is_authenticated (u : option User) : bool :=
  match u with Some _ => true | None => false end.

Definition login_user (u : User) : M unit :=
  w <- get_world ;;
  put_world {| User_table := User_table w; Item_table := Item_table w;
             session_user_id := Some (user_id u) |}.

Definition logout_user : M unit :=
  w <- get_world ;;
  put_world {| User_table := User_table w; Item_table := Item_table w;
               session_user_id := None |}.

End flask_login.

(* ===================================================================== *)
(** * WTForms and Flask-WTF *)
(* ===================================================================== *)

Inductive method := GET | POST.

(** What a posted form holds for an [IntegerField] or a [FloatField]: no
    value under the field's name, a text that [int()] (or [float()])
    refuses with [ValueError], or a text it turns into [v]. *)
Inductive formdata (A : Type) :=
| absent
| unparsable
| parsed (v : A).
Arguments absent {A}.
Arguments unparsable {A}.

Module wtforms.

(** A field after [process(formdata, obj)]. *)
Record Field (A : Type) := {
  data : option A;
  process_errors : list string
}.

(** [StringField] and [PasswordField]: a posted value replaces the data
    taken from [obj]; with no posted value the data stays. *)
Definition StringField (obj : option string) (raw : option string)
  : Field string :=
  {| data := match raw with Some s => Some s | None => obj end;
     process_errors := [] |}.

(** [IntegerField] and [FloatField]: as above, and a text that does not
    convert leaves [None] and a process error. *)
Definition NumberField {A} (msg : string) (obj : option A) (raw : formdata A)
  : Field A :=
  match raw with
  | absent => {| data := obj; process_errors := [] |}
  | unparsable => {| data := None; process_errors := [msg] |}
  | parsed v => {| data := Some v; process_errors := [] |}
  end.

Definition IntegerField := @NumberField Z "Not a valid integer value.".
Definition FloatField := @NumberField float "Not a valid float value.".

(** What a validator does: return, raise [ValidationError], or raise
    [StopValidation]. *)
Inductive verdict :=
| passes
| ValidationError (msg : string)
| StopValidation (msg : string).

Definition validator (A : Type) := option A -> verdict.

(** [DataRequired]: the data must be true, and not a string of white
    space only; otherwise the field's errors so far are dropped and the
    chain stops. *)
Definition DataRequired {A} `{Py.Data A} : validator A :=
  fun d =>
    match d with
    | Some v =>
        if Py.truth v && negb (Py.blank_str v) then passes
        else StopValidation "This field is required."
    | None => StopValidation "This field is required."
    end.

(** The message of [Length(min, max)]. *)
Definition characters (n : Z) : string :=
  if (n =? 1)%Z then " character" else " characters".

Definition Length_message (min max : Z) : string :=
  (if (max =? -1)%Z then
     "Field must be at least " ++ Py.str_of_int min ++ characters min ++ " long."
   else if (min =? -1)%Z then
     "Field cannot be longer than " ++ Py.str_of_int max ++ characters max ++ "."
   else if (min =? max)%Z then
     "Field must be exactly " ++ Py.str_of_int max ++ characters max ++ " long."
   else
     "Field must be between " ++ Py.str_of_int min ++ " and "
       ++ Py.str_of_int max ++ " characters long.")%string.

(** [Length(min, max)], [max = -1] meaning no upper bound. *)
Definition Length (min max : Z) : validator string :=
  fun d =>
    let length :=
      match d with
      | Some s => Z.of_nat (String.length s)
      | None => 0%Z
      end in
    if (min <=? length)%Z && ((max =? -1)%Z || (length <=? max)%Z) then passes
    else ValidationError (Length_message min max).

(** [EqualTo(fieldname)], given the data of the field of that name. *)
Definition EqualTo (fieldname : string) (other : option string)
  : validator string :=
  fun d =>
    if Py.eq_opt_str d other then passes
    else ValidationError ("Field must be equal to " ++ fieldname ++ ".")%string.

(** [Field._run_validation_chain], started from the errors so far. *)
Fixpoint run_validation_chain {A} (chain : list (validator A))
  (d : option A) (errors : list string) : list string :=
  match chain with
  | [] => errors
  | v :: chain' =>
      match v d with
      | passes => run_validation_chain chain' d errors
      | ValidationError msg => run_validation_chain chain' d (errors ++ [msg])
      | StopValidation msg => [msg]
      end
  end.

(** [Field.validate]: the errors the field ends with. *)
Definition field_errors {A} (f : Field A) (chain : list (validator A))
  : list string :=
  run_validation_chain chain (data f) (process_errors f).

(** The [csrf_token] field every [FlaskForm] has (the message is the one
    for a token that is missing). *)
Definition csrf_errors (token_valid : bool) : list string :=
  if token_valid then [] else ["The CSRF token is missing."].

Definition errors := list (string * list string).

(** [Form.validate]: every field is validated; true when none has an
    error. *)
Definition validate (e : errors) : bool :=
  forallb (fun fe => match snd fe with [] => true | _ => false end) e.

(** [FlaskForm.is_submitted] *)
Definition is_submitted (m : method) : bool :=
  match m with POST => true | GET => false end.

(** [FlaskForm.validate_on_submit] *)
Definition validate_on_submit (m : method) (e : errors) : bool :=
  is_submitted m && validate e.

(** [form.errors] as a template sees it: empty unless [validate] ran. *)
Definition shown_errors (m : method) (e : errors) : errors :=
  if is_submitted m then e else [].

End wtforms.

Import wtforms.

(** ** Forms (app.py 47-73) *)

(** [request.form] for the login page. *)
Record LoginPost := {
  login_csrf_valid : bool;
  login_username : option string;
  login_password : option string
}.

Record LoginForm := {
  LoginForm_csrf_token : bool;
  LoginForm_username : Field string;
  LoginForm_password : Field string
}.

Definition LoginForm_of (post : LoginPost) : LoginForm :=
  {| LoginForm_csrf_token := login_csrf_valid post;
     LoginForm_username := StringField None (login_username post);
     LoginForm_password := StringField None (login_password post) |}.

Definition LoginForm_errors (form : LoginForm) : errors :=
  [ ("csrf_token", csrf_errors (LoginForm_csrf_token form));
    ("username", field_errors (LoginForm_username form)
                   [DataRequired; Length 4 150]);
    ("password", field_errors (LoginForm_password form) [DataRequired]) ].

Record RegisterPost := {
  register_csrf_valid : bool;
  register_username : option string;
  register_password : option string;
  register_confirm_password : option string
}.

Record RegisterForm := {
  RegisterForm_csrf_token : bool;
  RegisterForm_username : Field string;
  RegisterForm_password : Field string;
  RegisterForm_confirm_password : Field string
}.

Definition RegisterForm_of (post : RegisterPost) : RegisterForm :=
  {| RegisterForm_csrf_token := register_csrf_valid post;
     RegisterForm_username := StringField None (register_username post);
     RegisterForm_password := StringField None (register_password post);
     RegisterForm_confirm_password :=
       StringField None (register_confirm_password post) |}.

Definition RegisterForm_errors (form : RegisterForm) : errors :=
  [ ("csrf_token", csrf_errors (RegisterForm_csrf_token form));
    ("username", field_errors (RegisterForm_username form)
                   [DataRequired; Length 4 150]);
    ("password", field_errors (RegisterForm_password form)
                   [DataRequired; Length 4 (-1)]);
    ("confirm_password",
       field_errors (RegisterForm_confirm_password form)
         [DataRequired;
          EqualTo "password" (data (RegisterForm_password form))]) ].

Record ItemPost := {
  item_csrf_valid : bool;
  item_name : option string;
  item_quantity : formdata Z;
  item_price : formdata float
}.

Record ItemForm := {
  ItemForm_csrf_token : bool;
  ItemForm_name : Field string;
  ItemForm_quantity : Field Z;
  ItemForm_price : Field float
}.

(** [ItemForm()] and [ItemForm(obj=item)] *)
Definition ItemForm_of (obj : option Item) (post : ItemPost) : ItemForm :=
  {| ItemForm_csrf_token := item_csrf_valid post;
     ItemForm_name := StringField (option_map name obj) (item_name post);
     ItemForm_quantity :=
       IntegerField (option_map quantity obj) (item_quantity post);
     ItemForm_price := FloatField (option_map price obj) (item_price post) |}.

Definition ItemForm_errors (form : ItemForm) : errors :=
  [ ("csrf_token", csrf_errors (ItemForm_csrf_token form));
    ("name", field_errors (ItemForm_name form) [DataRequired]);
    ("quantity", field_errors (ItemForm_quantity form) [DataRequired]);
    ("price", field_errors (ItemForm_price form) [DataRequired]) ].

(* ===================================================================== *)
(** * io and csv *)
(* ===================================================================== *)

Module io.

(** A file object as [csv.writer] uses it: [write] is given a [str]. *)
Class FileObject (F : Type) := {
  write_str : F -> string -> exception + F
}.

(** [io.BytesIO]: a buffer of bytes; [write] takes a bytes-like object
    and raises [TypeError] on a [str]. *)
Record BytesIO := { getvalue : list Byte.byte }.

#[export] Instance BytesIO_file : FileObject BytesIO := {|
  write_str _ _ := inl TypeError
|}.

(** [io.StringIO]: a buffer of text. *)
Record StringIO := { gettext : string }.

#[export] Instance StringIO_file : FileObject StringIO := {|
  write_str f s := inr {| gettext := gettext f ++ s |}%string
|}.

End io.

Import io.

Module csv.

Definition delimiter : ascii := ascii_of_nat 44.
Definition quotechar : ascii := ascii_of_nat 34.
Definition CR : ascii := ascii_of_nat 13.
Definition LF : ascii := ascii_of_nat 10.
Definition lineterminator : string := String CR (String LF EmptyString).

Definition special (c : ascii) : bool :=
  Ascii.eqb c delimiter || Ascii.eqb c quotechar
  || Ascii.eqb c CR || Ascii.eqb c LF.

Fixpoint has_special (s : string) : bool :=
  match s with
  | EmptyString => false
  | String c s' => special c || has_special s'
  end.

(** The quote character is doubled inside a quoted field. *)
Fixpoint doubled (s : string) : string :=
  match s with
  | EmptyString => EmptyString
  | String c s' =>
      if Ascii.eqb c quotechar then String c (String c (doubled s'))
      else String c (doubled s')
  end.

(** One field under [QUOTE_MINIMAL]. *)
Definition field (s : string) : string :=
  if has_special s
  then String quotechar (doubled s ++ String quotechar EmptyString)%string
  else s.

Fixpoint join (fields : list string) : string :=
  match fields with
  | [] => EmptyString
  | [f] => f
  | f :: rest => (f ++ String delimiter (join rest))%string
  end.

(** The text of one row; a row of one empty field is written quoted. *)
Definition row_text (cells : list string) : string :=
  match cells with
  | [c] =>
      match c with
      | EmptyString => String quotechar (String quotechar lineterminator)
      | _ => (field c ++ lineterminator)%string
      end
  | _ => (join (map field cells) ++ lineterminator)%string
  end.

(** A cell of a row before [str()] is applied to it. *)
Inductive cell :=
| of_str (s : string)
| of_int (z : Z)
| of_float (x : float).

Definition str (float_repr : float -> string) (c : cell) : string :=
  match c with
  | of_str s => s
  | of_int z => Py.str_of_int z
  | of_float x => float_repr x
  end.

(** [csv.writer(fileobj).writerow(row)] *)
Definition writerow {F} `{io.FileObject F} (float_repr : float -> string)
  (fileobj : F) (row : list cell) : exception + F :=
  io.write_str fileobj (row_text (map (str float_repr) row)).

End csv.

(* ===================================================================== *)
(** * Responses *)
(* ===================================================================== *)

Inductive url := url_for_index | url_for_login | url_for_register.

(** [render_template(name, ...)] with what the view passes to it. *)
Inductive page :=
| index_html (items : list Item)
| login_html (form_errors : errors)
| register_html (form_errors : errors)
| item_form_html (action : string) (form_errors : errors).

Inductive Response :=
| redirect (to : url)
| render_template (p : page)
| send_file (body : list Byte.byte) (mimetype : string)
    (attachment_filename : string) (as_attachment : bool)
| status (code : N).

(** What Flask answers when an exception leaves a view. *)
Definition error_response (e : exception) : Response :=
  match e with
  | NotFound => status 404
  | IntegrityError => status 500
  | OverflowError => status 500
  | TypeError => status 500
  end.

(** One request: the view runs on the world with an empty unit of work;
    what is still pending at the end is dropped with the session. *)
Definition start (w : World) : Ctx := {| world := w; pending := [] |}.

Definition run (view : M Response) (w : World)
  : list effect * World * Response :=
  match view (start w) with
  | (l, c, inr r) => (l, world c, r)
  | (l, c, inl e) => (l, world c, error_response e)
  end.

Definition flash (m : flash_message) (c : category) : M unit :=
  emit (flashed m c).

Definition lift {A} (r : exception + A) : M A :=
  match r with
  | inl e => raise e
  | inr a => ret a
  end.

(** [for x in xs: acc = body(x, acc)] *)
Fixpoint for_each {A S} (xs : list A) (acc : S) (body : A -> S -> M S)
  : M S :=
  match xs with
  | [] => ret acc
  | x :: xs' => acc' <- body x acc ;; for_each xs' acc' body
  end.

(** [LoginManager.unauthorized] with [login_view = 'login']. *)
Definition unauthorized : M Response :=
  flash Please_log_in_to_access_this_page message ;;
  ret (redirect url_for_login).

(** [@login_required], for the methods the routes accept (GET, POST). *)
Definition login_required (view : M Response) : M Response :=
  u <- flask_login.current_user ;;
  if flask_login.is_authenticated u then view else unauthorized.

(* ===================================================================== *)
(** * Routes (app.py 81-195) *)
(* ===================================================================== *)

Section Routes.

(** werkzeug.security.  [generate_password_hash] draws a random salt,
    which is its first argument here. *)
Variable generate_password_hash : string -> string -> string.
Variable check_password_hash : string -> string -> bool.

(** [repr] of a float, as [str()] gives it. *)
Variable float_repr : float -> string.

(** [User.set_password]: the [password_hash] the object then has.  A
    password that is [None] cannot be hashed; no validated form has
    one. *)
Definition set_password (salt : string) (password : option string)
  : M (option string) :=
  match password with
  | Some p => ret (Some (generate_password_hash salt p))
  | None => raise TypeError
  end.

(** [User.check_password]; likewise for [None]. *)
Definition check_password (u : User) (password : option string) : M bool :=
  match password with
  | Some p => ret (check_password_hash (password_hash u) p)
  | None => raise TypeError
  end.

(** [@app.route('/')] *)
Definition index : M Response :=
  login_required (
    items <- db.Item_query_all ;;
    ret (render_template (index_html items))).

(** [@app.route('/login', methods=['GET', 'POST'])] *)
Definition login (m : method) (post : LoginPost) : M Response :=
  u <- flask_login.current_user ;;
  if flask_login.is_authenticated u then ret (redirect url_for_index)
  else
    let form := LoginForm_of post in
    if validate_on_submit m (LoginForm_errors form) then
      user <- db.User_query_filter_by_username_first
                (data (LoginForm_username form)) ;;
      matches <- match user with
                 | Some usr => check_password usr (data (LoginForm_password form))
                 | None => ret false
                 end ;;
      match user, matches with
      | Some usr, true =>
          flask_login.login_user usr ;;
          flash Logged_in_successfully success ;;
          ret (redirect url_for_index)
      | _, _ =>
          flash Invalid_username_or_password danger ;;
          ret (render_template
                 (login_html (shown_errors m (LoginForm_errors form))))
      end
    else
      ret (render_template
             (login_html (shown_errors m (LoginForm_errors form)))).

(** [@app.route('/logout')] *)
Definition logout : M Response :=
  login_required (
    flask_login.logout_user ;;
    flash You_have_been_logged_out info ;;
    ret (redirect url_for_login)).

(** [@app.route('/register', methods=['GET', 'POST'])] *)
Definition register (salt : string) (m : method) (post : RegisterPost)
  : M Response :=
  u <- flask_login.current_user ;;
  if flask_login.is_authenticated u then ret (redirect url_for_index)
  else
    let form := RegisterForm_of post in
    if validate_on_submit m (RegisterForm_errors form) then
      existing_user <- db.User_query_filter_by_username_first
                         (data (RegisterForm_username form)) ;;
      match existing_user with
      | Some _ =>
          flash Username_already_exists danger ;;
          ret (redirect url_for_register)
      | None =>
          h <- set_password salt (data (RegisterForm_password form)) ;;
          db.session_register
            (new_User (data (RegisterForm_username form)) h) ;;
          db.session_commit ;;
          flash Registration_successful success ;;
          ret (redirect url_for_login)
      end
    else
      ret (render_template
             (register_html (shown_errors m (RegisterForm_errors form)))).

(** [@app.route('/item/add', methods=['GET', 'POST'])] *)
Definition add_item (m : method) (post : ItemPost) : M Response :=
  login_required (
    let form := ItemForm_of None post in
    if validate_on_submit m (ItemForm_errors form) then
      db.session_register
        (new_Item (data (ItemForm_name form))
                  (data (ItemForm_quantity form))
                  (data (ItemForm_price form))) ;;
      db.session_commit ;;
      flash Item_added_successfully success ;;
      ret (redirect url_for_index)
    else
      ret (render_template
             (item_form_html "Add" (shown_errors m (ItemForm_errors form))))).

(** [@app.route('/item/edit/<int:item_id>', methods=['GET', 'POST'])] *)
Definition edit_item (id : N) (m : method) (post : ItemPost) : M Response :=
  login_required (
    item <- db.Item_query_get_or_404 id ;;
    let form := ItemForm_of (Some item) post in
    if validate_on_submit m (ItemForm_errors form) then
      db.session_register
        (set_Item_name (item_id item) (data (ItemForm_name form))) ;;
      db.session_register
        (set_Item_quantity (item_id item) (data (ItemForm_quantity form))) ;;
      db.session_register
        (set_Item_price (item_id item) (data (ItemForm_price form))) ;;
      db.session_commit ;;
      flash Item_updated_successfully success ;;
      ret (redirect url_for_index)
    else
      ret (render_template
             (item_form_html "Edit" (shown_errors m (ItemForm_errors form))))).

(** [@app.route('/item/delete/<int:item_id>', methods=['POST'])] *)
Definition delete_item (id : N) : M Response :=
  login_required (
    item <- db.Item_query_get_or_404 id ;;
    db.session_register (deleted_Item (item_id item)) ;;
    db.session_commit ;;
    flash Item_deleted_successfully success ;;
    ret (redirect url_for_index)).

(** The rows [export_items] writes (app.py 186-188), for any file object
    given to [csv.writer]. *)
Definition header_row : list csv.cell :=
  [csv.of_str "ID"; csv.of_str "Name"; csv.of_str "Quantity"; csv.of_str "Price"].

Definition item_row (item : Item) : list csv.cell :=
  [csv.of_int (Z.of_N (item_id item)); csv.of_str (name item);
   csv.of_int (quantity item); csv.of_float (price item)].

Definition write_inventory {F} `{io.FileObject F} (output : F)
  (items : list Item) : M F :=
  output <- lift (csv.writerow float_repr output header_row) ;;
  for_each items output (fun item output =>
    lift (csv.writerow float_repr output (item_row item))).

(** [@app.route('/export', methods=['GET'])]; [output = BytesIO()]. *)
Definition export_items : M Response :=
  login_required (
    items <- db.Item_query_all ;;
    let output := {| getvalue := [] |} in
    output <- write_inventory output items ;;
    (* output.seek(0) *)
    ret (send_file (getvalue output) "text/csv" "inventory.csv" true)).

(** ** The exposed operations *)

Inductive Request :=
| GET_index
| login_request (m : method) (post : LoginPost)
| GET_logout
| register_request (salt : string) (m : method) (post : RegisterPost)
| add_item_request (m : method) (post : ItemPost)
| edit_item_request (id : N) (m : method) (post : ItemPost)
| POST_delete_item (id : N)
| GET_export.

Definition view_of (r : Request) : M Response :=
  match r with
  | GET_index => index
  | login_request m post => login m post
  | GET_logout => logout
  | register_request salt m post => register salt m post
  | add_item_request m post => add_item m post
  | edit_item_request id m post => edit_item id m post
  | POST_delete_item id => delete_item id
  | GET_export => export_items
  end.

Definition handle (r : Request) (w : World) : list effect * World * Response :=
  run (view_of r) w.

(** The routes marked [@login_required]. *)
Definition auth_required (r : Request) : bool :=
  match r with
  | login_request _ _ | register_request _ _ _ => false
  | _ => true
  end.

End Routes.

(* ===================================================================== *)
(** * Reading the session *)
(* ===================================================================== *)

(** The user [current_user] stands for in a world. *)
Definition current_user_of (w : World) : option User :=
  match session_user_id w with
  | Some uid => find (fun u => (user_id u =? uid)%N) (User_table w)
  | None => None
  end.

Definition authenticated (w : World) : bool :=
  flask_login.is_authenticated (current_user_of w).

(** What loading [current_user] logs: one read of [User] when the session
    names a user id. *)
Definition guard_log (w : World) : list effect :=
  match session_user_id w with
  | Some _ => [db_read Users]
  | None => []
  end.

(* ===================================================================== *)
(** * Vocabulary of the properties *)
(* ===================================================================== *)

(** The world, and the log, an answered request leaves. *)
Definition after (x : list effect * World * Response) : World := snd (fst x).
Definition log_of (x : list effect * World * Response) : list effect := fst (fst x).

(** The world with another session user id. *)
Definition with_session (w : World) (s : option N) : World :=
  {| User_table := User_table w; Item_table := Item_table w;
     session_user_id := s |}.

(** What the route guard answers when nobody is logged in. *)
Definition unauthorized_outcome (w : World) : list effect * World * Response :=
  (guard_log w ++ [flashed Please_log_in_to_access_this_page message],
   w, redirect url_for_login).

(** A log with no read and no write of the Item table. *)
Definition no_item_access (l : list effect) : Prop :=
  ~ In (db_read Items) l /\ ~ In (db_write Items) l.

(** Field data that [DataRequired] lets through: a string that is not
    empty, also once stripped. *)
Definition present (d : option string) : Prop :=
  exists s, d = Some s /\ s <> "" /\ strip s <> "".

(** The length [Length] measures: 0 when there is no data. *)
Definition length_of (d : option string) : nat :=
  match d with
  | Some s => String.length s
  | None => 0
  end.

(** The submissions [add] accepts: a name that is not blank, a quantity
    that converts to an integer other than 0, a price that converts to a
    float other than zero. *)
Definition acceptable (post : ItemPost) : Prop :=
  exists n q p,
    item_name post = Some n /\ strip n <> ""
    /\ item_quantity post = parsed q /\ q <> 0%Z
    /\ item_price post = parsed p /\ PrimFloat.eqb p 0%float = false.

(** A row after an edit of the item [id]: the row of that id takes the
    three values, any other row stays. *)
Definition edited (id : N) (n : string) (q : Z) (p : float) (r : Item) : Item :=
  if (item_id r =? id)%N
  then {| item_id := item_id r; name := n; quantity := q; price := p |}
  else r.

(** The changes an accepted edit of the item [id] leaves pending: the
    three attributes [populate_obj] assigns, in the order of the form. *)
Definition edit_changes (id : N) (n : string) (q : Z) (p : float) : list change :=
  [set_Item_name id (Some n); set_Item_quantity id (Some q);
   set_Item_price id (Some p)].

(** What the forms let into the tables: an Item with a name that is not
    blank, a quantity other than 0 and a price other than zero; a User
    with a username of 4 to 150 characters that is not blank. *)
Definition item_ok (r : Item) : Prop :=
  strip (name r) <> "" /\ quantity r <> 0%Z
  /\ PrimFloat.eqb (price r) 0%float = false.

Definition user_ok (u : User) : Prop :=
  (4 <= String.length (username u) <= 150)%nat /\ strip (username u) <> "".

(** The HTTP method of a request. *)
Definition method_of (r : Request) : method :=
  match r with
  | GET_index | GET_logout | GET_export => GET
  | login_request m _ | register_request _ m _
  | add_item_request m _ | edit_item_request _ m _ => m
  | POST_delete_item _ => POST
  end.

(** Whether the CSRF token of the form a request carries is valid; the
    requests without a form have none. *)
Definition csrf_token_of (r : Request) : option bool :=
  match r with
  | login_request _ post => Some (login_csrf_valid post)
  | register_request _ _ post => Some (register_csrf_valid post)
  | add_item_request _ post | edit_item_request _ _ post =>
      Some (item_csrf_valid post)
  | _ => None
  end.

Definition response_of (x : list effect * World * Response) : Response := snd x.

Section Reachability.

Variable generate_password_hash : string -> string -> string.
Variable check_password_hash : string -> string -> bool.
Variable float_repr : float -> string.

(** The worlds a client can bring about from [w] by any sequence of
    requests. *)
Inductive reachable (w : World) : World -> Prop :=
| reach_here : reachable w w
| reach_step (w1 : World) (r : Request) :
    reachable w w1 ->
    reachable w
      (after (handle generate_password_hash check_password_hash float_repr r w1)).

End Reachability.

(** ** Sample data *)

(** A stand-in for werkzeug's pair of functions with the one law the
    proofs ask of it; it serves to run the views on concrete inputs. *)
Definition plain_generate (salt password : string) : string := password.
Definition plain_check (pwhash password : string) : bool := pwhash =? password.
Definition plain_repr (x : float) : string := "0.0".

Definition alice : User :=
  {| user_id := 1; username := "alice"; password_hash := "secret" |}.

Definition apples : Item :=
  {| item_id := 1; name := "Apples"; quantity := 3%Z; price := 0.5%float |}.

Definition pears : Item :=
  {| item_id := 2; name := "Pears"; quantity := 7%Z; price := 1.25%float |}.

(** Alice is registered; nobody is logged in. *)
Definition world_alice : World :=
  {| User_table := [alice]; Item_table := []; session_user_id := None |}.

(** Alice is logged in and the store holds two items. *)
Definition world_two_items : World :=
  {| User_table := [alice]; Item_table := [apples; pears];
     session_user_id := Some 1%N |}.

Definition widget_post : ItemPost :=
  {| item_csrf_valid := true;
     item_name := Some "Widget";
     item_quantity := parsed 5%Z;
     item_price := parsed 2.5%float |}.

Definition short_password_post : RegisterPost :=
  {| register_csrf_valid := true;
     register_username := Some "alice";
     register_password := Some "abc";
     register_confirm_password := Some "abc" |}.

Definition empty_world : World :=
  {| User_table := []; Item_table := []; session_user_id := None |}.

Definition alice_registration : RegisterPost :=
  {| register_csrf_valid := true;
     register_username := Some "alice";
     register_password := Some "secret";
     register_confirm_password := Some "secret" |}.

Definition alice_login (password : string) : LoginPost :=
  {| login_csrf_valid := true;
     login_username := Some "alice";
     login_password := Some password |}.


Definition rename_apples_post : ItemPost :=
  {| item_csrf_valid := true;
     item_name := Some "Green apples";
     item_quantity := absent;
     item_price := parsed 0.75%float |}.

Definition long_name : string :=
  "aaaaaaaaaaaaaaaaaaaaaaaaaaaaaaaaaaaaaaaaaaaaaaaaaaaaaaaaaaaaaaaaaaaaaaaaaaaaaaaaaaaaaaaaaaaaaaaaaaaaaaaaaaaaaaaaaaaaaaaaaaaaaaaaaaaaaaaaaaaaaaaaaaaaaaa".

Definition mismatch_post : RegisterPost :=
  {| register_csrf_valid := true;
     register_username := Some "robert";
     register_password := Some "secret";
     register_confirm_password := Some "secrex" |}.

Definition robert_registration : RegisterPost :=
  {| register_csrf_valid := true;
     register_username := Some "robert";
     register_password := Some "secret";
     register_confirm_password := Some "secret" |}.

(** The widget submission with a CSRF token that does not check. *)
Definition forged_widget_post : ItemPost :=
  {| item_csrf_valid := false;
     item_name := Some "Widget";
     item_quantity := parsed 5%Z;
     item_price := parsed 2.5%float |}.

(* ===================================================================== *)
(** * Properties *)
(* ===================================================================== *)

Unset Implicit Arguments.

Lemma current_user_run (c : Ctx) :
  flask_login.current_user c = (guard_log (world c), c, inr (current_user_of (world c))).
Proof.
  unfold flask_login.current_user, current_user_of, guard_log, bind, get_world.
  destruct (session_user_id (world c)); reflexivity.
Qed.

Lemma login_required_run (view : M Response) (c : Ctx) :
  login_required view c =
  if authenticated (world c)
  then match view c with (l, c', r) => (guard_log (world c) ++ l, c', r) end
  else (guard_log (world c) ++ [flashed Please_log_in_to_access_this_page message],
        c, inr (redirect url_for_login)).
Proof.
  unfold login_required, bind at 1. rewrite current_user_run.
  unfold authenticated.
  destruct (flask_login.is_authenticated (current_user_of (world c))).
  - destruct (view c) as [[l c'] [e | r]]; reflexivity.
  - reflexivity.
Qed.

Lemma next_id_above (ids : list N) (i : N) :
  In i ids -> (i < db.next_id ids)%N.
Proof.
  unfold db.next_id. induction ids as [| j ids IH]; simpl; [tauto |].
  intros [-> | Hin]; [lia | specialize (IH Hin); lia].
Qed.

Lemma next_id_fresh (rows : list Item) (r : Item) :
  In r rows -> item_id r <> db.next_id (map item_id rows).
Proof.
  intros Hin Heq.
  pose proof (next_id_above (map item_id rows) (item_id r) (in_map _ _ _ Hin)).
  lia.
Qed.

(** ** Adding an item *)

(** C1. After a logged-in user posts the add form with name "Widget",
    quantity 5 and price 2.50 (a valid submission), the Item table holds
    one row more, a new Item with exactly those values, and the list page
    requested next shows the table with that row in it. *)
Theorem C1_add_widget_then_list (w : World) :
  authenticated w = true ->
  exists (it : Item) (w1 : World),
    run (add_item POST widget_post) w =
      (guard_log w ++ [db_write Items; flashed Item_added_successfully success],
       w1, redirect url_for_index)
    /\ Item_table w1 = Item_table w ++ [it]
    /\ ~ In it (Item_table w)
    /\ name it = "Widget" /\ quantity it = 5%Z /\ price it = 2.5%float
    /\ User_table w1 = User_table w
    /\ exists items,
         run index w1 = (guard_log w1 ++ [db_read Items], w1,
                         render_template (index_html items))
         /\ In it items.
Proof.
  intros Hauth.
  exists {| item_id := db.next_id (map item_id (Item_table w));
            name := "Widget"; quantity := 5%Z; price := 2.5%float |}.
  exists (db.with_items w (Item_table w ++
            [{| item_id := db.next_id (map item_id (Item_table w));
                name := "Widget"; quantity := 5%Z; price := 2.5%float |}])).
  split.
  { unfold run, add_item. rewrite login_required_run. cbn [world start].
    rewrite Hauth. reflexivity. }
  split; [reflexivity |].
  split.
  { intros Hin. apply (next_id_fresh _ _ Hin). reflexivity. }
  do 4 (split; [reflexivity |]).
  eexists. split.
  { unfold run, index. rewrite login_required_run. cbn [world].
    replace (authenticated _) with true by (symmetry; exact Hauth).
    reflexivity. }
  cbn. apply in_or_app. right. left. reflexivity.
Qed.

Lemma C1_witness :
  authenticated world_two_items = true /\
  exists (it : Item) (w1 : World),
    run (add_item POST widget_post) world_two_items =
      (guard_log world_two_items ++
         [db_write Items; flashed Item_added_successfully success],
       w1, redirect url_for_index)
    /\ Item_table w1 = Item_table world_two_items ++ [it]
    /\ ~ In it (Item_table world_two_items)
    /\ name it = "Widget" /\ quantity it = 5%Z /\ price it = 2.5%float
    /\ User_table w1 = User_table world_two_items
    /\ exists items,
         run index w1 = (guard_log w1 ++ [db_read Items], w1,
                         render_template (index_html items))
         /\ In it items.
Proof.
  split; [reflexivity | apply (C1_add_widget_then_list world_two_items); reflexivity].
Defined.

(** ** Registration *)

Lemma find_finds {A} (f : A -> bool) (l : list A) (a : A) :
  In a l -> f a = true -> exists b, find f l = Some b.
Proof.
  induction l as [| x l IH]; simpl; [tauto |].
  intros [-> | Hin] Hf.
  - rewrite Hf. eauto.
  - destruct (f x); eauto.
Qed.

(** C2, as stated, fails: Alice is registered, and a registration for
    "alice" with the three-character password "abc" ends on the form's
    validation error; the user table is never read and the message
    "Username already exists" is not flashed. *)
Lemma C2_short_password_counterexample :
  In alice (User_table world_alice)
  /\ register_username short_password_post = Some (username alice)
  /\ run (register plain_generate "salt" POST short_password_post) world_alice =
       ([], world_alice,
        render_template (register_html
          [("csrf_token", []); ("username", []);
           ("password", ["Field must be at least 4 characters long."]);
           ("confirm_password", [])]))
  /\ ~ In (flashed Username_already_exists danger)
          (fst (fst (run (register plain_generate "salt" POST short_password_post)
                         world_alice))).
Proof.
  repeat split; try reflexivity.
  - left. reflexivity.
  - cbn. tauto.
Qed.

(** C2, amended. If a User with username u exists, every registration
    submitted for u, whatever the password, leaves the world (and so the
    User table) as it was and writes nothing; and when the submission
    comes from a client that is not logged in and passes the form's
    validation (a POST with a valid CSRF token, u of 4 to 150 characters,
    a password of at least 4 characters, neither blank, and an equal
    confirmation), it fails with "Username already exists" and a redirect
    back to the registration page. *)
Theorem C2_register_existing_username
  (generate_password_hash : string -> string -> string)
  (salt : string) (m : method) (post : RegisterPost) (w : World) (u : User) :
  In u (User_table w) ->
  register_username post = Some (username u) ->
  (exists l r,
     run (register generate_password_hash salt m post) w = (l, w, r)
     /\ ~ In (db_write Users) l
     /\ ~ In (flashed Registration_successful success) l)
  /\ (authenticated w = false ->
      validate_on_submit m (RegisterForm_errors (RegisterForm_of post)) = true ->
      run (register generate_password_hash salt m post) w =
        (guard_log w ++ [db_read Users; flashed Username_already_exists danger],
         w, redirect url_for_register)).
Proof.
  intros Hin Hname.
  destruct (find_finds (fun r => username r =? username u) (User_table w) u Hin
              (String.eqb_refl _)) as [v Hfind].
  assert (Hrun : forall c, world c = w ->
    register generate_password_hash salt m post c =
    if authenticated w then (guard_log w, c, inr (redirect url_for_index))
    else if validate_on_submit m (RegisterForm_errors (RegisterForm_of post))
    then (guard_log w ++ [db_read Users; flashed Username_already_exists danger],
          c, inr (redirect url_for_register))
    else (guard_log w, c,
          inr (render_template (register_html
                 (shown_errors m (RegisterForm_errors (RegisterForm_of post))))))).
  { intros c Hc. unfold register, bind at 1. rewrite current_user_run, Hc.
    unfold authenticated.
    destruct (flask_login.is_authenticated (current_user_of w)).
    - cbn. rewrite app_nil_r. reflexivity.
    - destruct (validate_on_submit m _).
      + unfold bind, db.User_query_filter_by_username_first, bind, emit, get_world, ret.
        rewrite Hc. cbn [data RegisterForm_username RegisterForm_of StringField].
        rewrite Hname. cbn [eq_opt_str]. rewrite Hfind. cbn. reflexivity.
      + cbn. rewrite app_nil_r. reflexivity. }
  split.
  - unfold run. rewrite (Hrun (start w) eq_refl).
    destruct (authenticated w); [| destruct (validate_on_submit m _)];
      cbn [world start]; do 2 eexists; (split; [reflexivity |]);
      unfold guard_log; destruct (session_user_id w); cbn;
      intuition discriminate.
  - intros Hauth Hvalid. unfold run. rewrite (Hrun (start w) eq_refl), Hauth, Hvalid.
    reflexivity.
Qed.

Lemma C2_witness :
  In alice (User_table world_alice)
  /\ register_username alice_registration = Some (username alice)
  /\ run (register plain_generate "salt" POST alice_registration) world_alice =
       ([db_read Users; flashed Username_already_exists danger],
        world_alice, redirect url_for_register).
Proof.
  split; [left; reflexivity |]. split; [reflexivity |].
  apply (C2_register_existing_username plain_generate "salt" POST
           alice_registration world_alice alice (or_introl eq_refl) eq_refl);
    reflexivity.
Defined.

(** ** What the forms accept *)

Lemma validate_cons (n : string) (e : list string) (rest : errors) :
  validate ((n, e) :: rest) = true <-> e = [] /\ validate rest = true.
Proof.
  unfold validate. cbn [forallb snd]. rewrite andb_true_iff.
  destruct e; intuition discriminate.
Qed.

Lemma csrf_errors_nil (b : bool) : csrf_errors b = [] <-> b = true.
Proof. destruct b; cbn; intuition discriminate. Qed.

Lemma DataRequired_str (d : option string) :
  DataRequired d = passes <-> present d.
Proof.
  unfold DataRequired, present. destruct d as [s |].
  - cbn [truth blank_str Data_str].
    destruct (s =? "") eqn:E1; destruct (strip s =? "") eqn:E2; cbn;
      rewrite ?String.eqb_eq, ?String.eqb_neq in *; split.
    all: try discriminate.
    all: try (intros (s' & [= <-] & H1 & H2); congruence).
    intros _. exists s. auto.
  - split; [discriminate | intros (s & H & _); discriminate].
Qed.

Lemma DataRequired_cases {A} `{Py.Data A} (d : option A) :
  DataRequired d = passes \/
  DataRequired d = StopValidation "This field is required.".
Proof.
  unfold DataRequired. destruct d as [v |]; [| auto].
  destruct (truth v && negb (blank_str v)); auto.
Qed.

Lemma Length_passes (min max : Z) (d : option string) :
  Length min max d = passes <->
  (min <= Z.of_nat (length_of d))%Z
  /\ (max = (-1)%Z \/ (Z.of_nat (length_of d) <= max)%Z).
Proof.
  unfold Length, length_of.
  set (n := match d with Some s => Z.of_nat (String.length s) | None => 0%Z end).
  replace (Z.of_nat match d with Some s => String.length s | None => 0 end)
    with n by (destruct d; reflexivity).
  destruct (min <=? n)%Z eqn:E1; destruct (max =? -1)%Z eqn:E2;
    destruct (n <=? max)%Z eqn:E3; cbn; split; try discriminate; try lia;
    intros; try reflexivity; lia.
Qed.

Lemma Length_cases (min max : Z) (d : option string) :
  Length min max d = passes \/
  Length min max d = ValidationError (Length_message min max).
Proof.
  unfold Length.
  destruct ((min <=? _)%Z && _); auto.
Qed.

Lemma EqualTo_passes (fieldname : string) (other d : option string) :
  EqualTo fieldname other d = passes <-> d = other.
Proof.
  unfold EqualTo, eq_opt_str.
  destruct d as [x |], other as [y |]; try (split; congruence).
  destruct (x =? y) eqn:E; rewrite ?String.eqb_eq, ?String.eqb_neq in E;
    split; congruence.
Qed.

Lemma EqualTo_cases (fieldname : string) (other d : option string) :
  EqualTo fieldname other d = passes \/
  EqualTo fieldname other d
    = ValidationError ("Field must be equal to " ++ fieldname ++ ".")%string.
Proof. unfold EqualTo. destruct (eq_opt_str d other); auto. Qed.

(** A chain of [DataRequired] and one more validator leaves no error
    exactly when both pass. *)
Lemma required_and_errors (v : validator string) (d : option string)
  (msg : string) :
  v d = passes \/ v d = ValidationError msg ->
  run_validation_chain [DataRequired; v] d [] = [] <->
  present d /\ v d = passes.
Proof.
  intros Hv. cbn [run_validation_chain].
  rewrite <- DataRequired_str.
  destruct (DataRequired_cases d) as [-> | ->];
    destruct Hv as [-> | ->]; cbn; intuition discriminate.
Qed.

Lemma required_errors {A} `{Py.Data A} (d : option A) (pe : list string) :
  run_validation_chain [DataRequired] d pe = [] <->
  DataRequired d = passes /\ pe = [].
Proof.
  cbn [run_validation_chain].
  destruct (DataRequired_cases d) as [-> | ->]; intuition discriminate.
Qed.

Lemma RegisterForm_valid (m : method) (post : RegisterPost) :
  validate_on_submit m (RegisterForm_errors (RegisterForm_of post)) = true <->
  m = POST
  /\ register_csrf_valid post = true
  /\ present (register_username post)
  /\ (4 <= length_of (register_username post) <= 150)%nat
  /\ present (register_password post)
  /\ (4 <= length_of (register_password post))%nat
  /\ register_confirm_password post = register_password post.
Proof.
  unfold validate_on_submit, RegisterForm_errors, RegisterForm_of, field_errors.
  cbn [RegisterForm_csrf_token RegisterForm_username RegisterForm_password
       RegisterForm_confirm_password data process_errors StringField].
  replace (match register_username post with Some s => Some s | None => None end)
    with (register_username post) by (destruct (register_username post); reflexivity).
  replace (match register_password post with Some s => Some s | None => None end)
    with (register_password post) by (destruct (register_password post); reflexivity).
  replace (match register_confirm_password post with Some s => Some s | None => None end)
    with (register_confirm_password post)
    by (destruct (register_confirm_password post); reflexivity).
  rewrite andb_true_iff, !validate_cons, csrf_errors_nil.
  rewrite (required_and_errors (Length 4 150) _ _ (Length_cases _ _ _)).
  rewrite (required_and_errors (Length 4 (-1)) _ _ (Length_cases _ _ _)).
  rewrite (required_and_errors (EqualTo _ _) _ _ (EqualTo_cases _ _ _)).
  rewrite !Length_passes, EqualTo_passes.
  destruct m; cbn [is_submitted]; split.
  - intros [? _]. discriminate.
  - intros [? _]. discriminate.
  - intros (_ & Hc & (Hu & Hul) & (Hp & Hpl) & (Hcp & Heq) & _).
    repeat split; auto; lia.
  - intros (_ & Hc & Hu & Hul & Hp & Hpl & Heq).
    repeat split; auto; try lia.
    rewrite Heq. exact Hp.
Qed.

Lemma LoginForm_valid (m : method) (post : LoginPost) :
  validate_on_submit m (LoginForm_errors (LoginForm_of post)) = true <->
  m = POST
  /\ login_csrf_valid post = true
  /\ present (login_username post)
  /\ (4 <= length_of (login_username post) <= 150)%nat
  /\ present (login_password post).
Proof.
  unfold validate_on_submit, LoginForm_errors, LoginForm_of, field_errors.
  cbn [LoginForm_csrf_token LoginForm_username LoginForm_password
       data process_errors StringField].
  replace (match login_username post with Some s => Some s | None => None end)
    with (login_username post) by (destruct (login_username post); reflexivity).
  replace (match login_password post with Some s => Some s | None => None end)
    with (login_password post) by (destruct (login_password post); reflexivity).
  rewrite andb_true_iff, !validate_cons, csrf_errors_nil.
  rewrite (required_and_errors (Length 4 150) _ _ (Length_cases _ _ _)).
  rewrite required_errors, DataRequired_str, Length_passes.
  destruct m; cbn [is_submitted]; split.
  - intros [? _]. discriminate.
  - intros [? _]. discriminate.
  - intros (_ & Hc & (Hu & Hul) & (Hp & _) & _). repeat split; auto; lia.
  - intros (_ & Hc & Hu & Hul & Hp). repeat split; auto; lia.
Qed.

(** ** The two public views, case by case *)

Lemma register_run (generate_password_hash : string -> string -> string)
  (salt : string) (m : method) (post : RegisterPost) (w : World) :
  run (register generate_password_hash salt m post) w =
  if authenticated w then (guard_log w, w, redirect url_for_index)
  else if validate_on_submit m (RegisterForm_errors (RegisterForm_of post))
  then
    match find (fun r => eq_opt_str (Some (username r)) (register_username post))
               (User_table w),
          register_username post, register_password post with
    | Some _, _, _ =>
        (guard_log w ++ [db_read Users; flashed Username_already_exists danger],
         w, redirect url_for_register)
    | None, Some u, Some p =>
        (guard_log w ++
           [db_read Users; db_write Users; flashed Registration_successful success],
         db.with_users w (User_table w ++
           [{| user_id := db.next_id (map user_id (User_table w));
               username := u;
               password_hash := generate_password_hash salt p |}]),
         redirect url_for_login)
    | None, _, _ => (guard_log w ++ [db_read Users], w, status 500)
    end
  else (guard_log w, w,
        render_template (register_html
          (shown_errors m (RegisterForm_errors (RegisterForm_of post))))).
Proof.
  unfold run, register, bind at 1. rewrite current_user_run.
  cbn [world start]. unfold authenticated.
  destruct (flask_login.is_authenticated (current_user_of w)).
  { cbn. rewrite app_nil_r. reflexivity. }
  destruct (validate_on_submit m _).
  2:{ cbn. rewrite app_nil_r. reflexivity. }
  unfold bind, db.User_query_filter_by_username_first, bind, emit, get_world, ret.
  cbn [data RegisterForm_username RegisterForm_password RegisterForm_of
       StringField world start].
  destruct (register_username post) as [u |] eqn:Hu.
  - destruct (find _ (User_table w)) eqn:Hf.
    + cbn. reflexivity.
    + destruct (register_password post) as [p |] eqn:Hp.
      * cbn. cbn in Hf. rewrite Hf. cbn. reflexivity.
      * cbn. reflexivity.
  - destruct (find _ (User_table w)) eqn:Hf.
    + cbn. reflexivity.
    + destruct (register_password post) as [p |] eqn:Hp; cbn; reflexivity.
Qed.

Lemma login_run (check_password_hash : string -> string -> bool)
  (m : method) (post : LoginPost) (w : World) :
  run (login check_password_hash m post) w =
  if authenticated w then (guard_log w, w, redirect url_for_index)
  else if validate_on_submit m (LoginForm_errors (LoginForm_of post))
  then
    match find (fun r => eq_opt_str (Some (username r)) (login_username post))
               (User_table w),
          login_password post with
    | Some usr, Some p =>
        if check_password_hash (password_hash usr) p
        then (guard_log w ++ [db_read Users; flashed Logged_in_successfully success],
              with_session w (Some (user_id usr)), redirect url_for_index)
        else (guard_log w ++
                [db_read Users; flashed Invalid_username_or_password danger],
              w, render_template (login_html
                   (shown_errors m (LoginForm_errors (LoginForm_of post)))))
    | Some _, None => (guard_log w ++ [db_read Users], w, status 500)
    | None, _ =>
        (guard_log w ++
           [db_read Users; flashed Invalid_username_or_password danger],
         w, render_template (login_html
              (shown_errors m (LoginForm_errors (LoginForm_of post)))))
    end
  else (guard_log w, w,
        render_template (login_html
          (shown_errors m (LoginForm_errors (LoginForm_of post))))).
Proof.
  unfold run, login, bind at 1. rewrite current_user_run.
  cbn [world start]. unfold authenticated.
  destruct (flask_login.is_authenticated (current_user_of w)).
  { cbn. rewrite app_nil_r. reflexivity. }
  destruct (validate_on_submit m _).
  2:{ cbn. rewrite app_nil_r. reflexivity. }
  unfold bind, db.User_query_filter_by_username_first, bind, emit, get_world, ret.
  cbn [data LoginForm_username LoginForm_password LoginForm_of
       StringField world start].
  replace (match login_username post with Some s => Some s | None => None end)
    with (login_username post) by (destruct (login_username post); reflexivity).
  destruct (find _ (User_table w)) as [usr |] eqn:Hf.
  - destruct (login_password post) as [p |]; cbn.
    + destruct (check_password_hash (password_hash usr) p); cbn; reflexivity.
    + reflexivity.
  - cbn. reflexivity.
Qed.

(** ** The guarded views, case by case *)

Lemma run_login_required (view : M Response) (w : World) :
  run (login_required view) w =
  if authenticated w
  then match run view w with (l, w', r) => (guard_log w ++ l, w', r) end
  else unauthorized_outcome w.
Proof.
  unfold run. rewrite login_required_run. cbn [world start].
  destruct (authenticated w); [| reflexivity].
  destruct (view (start w)) as [[l c] [e | r]]; reflexivity.
Qed.

Lemma index_run (w : World) :
  run index w =
  if authenticated w
  then (guard_log w ++ [db_read Items], w, render_template (index_html (Item_table w)))
  else unauthorized_outcome w.
Proof. unfold index. rewrite run_login_required. reflexivity. Qed.

Lemma logout_run (w : World) :
  run logout w =
  if authenticated w
  then (guard_log w ++ [flashed You_have_been_logged_out info],
        with_session w None, redirect url_for_login)
  else unauthorized_outcome w.
Proof. unfold logout. rewrite run_login_required. reflexivity. Qed.

(** Laying a commit open up to the checks of the values it binds. *)
Ltac expose_commit :=
  unfold bind, db.session_commit, db.session_register, bind, get_pending,
    put_pending, get_world, put_world, flash, emit, ret, raise;
  cbn [pending world app db.flush_all db.flush start].

Lemma add_item_run (m : method) (post : ItemPost) (w : World) :
  run (add_item m post) w =
  if authenticated w then
    let form := ItemForm_of None post in
    if validate_on_submit m (ItemForm_errors form) then
      match data (ItemForm_name form), data (ItemForm_quantity form),
            data (ItemForm_price form) with
      | Some n, Some q, Some p =>
          if db.bindable_int q && db.storable_float p then
            (guard_log w ++ [db_write Items; flashed Item_added_successfully success],
             db.with_items w (Item_table w ++
               [{| item_id := db.next_id (map item_id (Item_table w));
                   name := n; quantity := q; price := p |}]),
             redirect url_for_index)
          else (guard_log w, w, status 500)
      | _, _, _ => (guard_log w, w, status 500)
      end
    else (guard_log w, w,
          render_template (item_form_html "Add"
            (shown_errors m (ItemForm_errors form))))
  else unauthorized_outcome w.
Proof.
  unfold add_item. rewrite run_login_required.
  destruct (authenticated w); [| reflexivity].
  cbv zeta. destruct (validate_on_submit m _);
    [| cbn; rewrite app_nil_r; reflexivity].
  unfold run.
  destruct (data (ItemForm_name (ItemForm_of None post))) as [n |] eqn:Hn;
    destruct (data (ItemForm_quantity (ItemForm_of None post))) as [q |] eqn:Hq;
    destruct (data (ItemForm_price (ItemForm_of None post))) as [p |] eqn:Hp;
    cbn; try (rewrite ?app_nil_r; reflexivity).
  expose_commit.
  destruct (db.bindable_int q), (db.storable_float p); cbn;
    rewrite ?app_nil_r; reflexivity.
Qed.

Lemma three_updates (id : N) (n : string) (q : Z) (p : float) (rows : list Item) :
  db.update_Item id (fun r =>
     {| item_id := item_id r; name := name r; quantity := quantity r; price := p |})
    (db.update_Item id (fun r =>
       {| item_id := item_id r; name := name r; quantity := q; price := price r |})
      (db.update_Item id (fun r =>
         {| item_id := item_id r; name := n; quantity := quantity r;
            price := price r |}) rows))
  = map (edited id n q p) rows.
Proof.
  unfold db.update_Item. rewrite !map_map. apply map_ext.
  intros r. unfold edited. destruct (item_id r =? id)%N eqn:E; cbn.
  - rewrite !E. cbn. rewrite E. reflexivity.
  - rewrite !E. reflexivity.
Qed.

Lemma find_item_id (id : N) (rows : list Item) (r : Item) :
  find (fun r => (item_id r =? id)%N) rows = Some r -> In r rows /\ item_id r = id.
Proof.
  intros H. apply find_some in H. destruct H as [Hin Heq].
  apply N.eqb_eq in Heq. auto.
Qed.

Lemma edit_item_run (id : N) (m : method) (post : ItemPost) (w : World) :
  run (edit_item id m post) w =
  if authenticated w then
    if db.bindable_id id then
      match find (fun r => (item_id r =? id)%N) (Item_table w) with
      | None => (guard_log w ++ [db_read Items], w, status 404)
      | Some item =>
          let form := ItemForm_of (Some item) post in
          if validate_on_submit m (ItemForm_errors form) then
            match data (ItemForm_name form), data (ItemForm_quantity form),
                  data (ItemForm_price form) with
            | Some n, Some q, Some p =>
                if db.bindable_int q && db.storable_float p then
                  (guard_log w ++
                     db_read Items ::
                     db.statements (edit_changes id n q p) w [] ++
                     [flashed Item_updated_successfully success],
                   db.with_items w (map (edited id n q p) (Item_table w)),
                   redirect url_for_index)
                else (guard_log w ++ [db_read Items], w, status 500)
            | _, _, _ => (guard_log w ++ [db_read Items], w, status 500)
            end
          else (guard_log w ++ [db_read Items], w,
                render_template (item_form_html "Edit"
                  (shown_errors m (ItemForm_errors form))))
      end
    else (guard_log w, w, status 500)
  else unauthorized_outcome w.
Proof.
  unfold edit_item. rewrite run_login_required.
  destruct (authenticated w); [| reflexivity].
  unfold run, bind at 1, db.Item_query_get_or_404.
  destruct (db.bindable_id id); [| cbn; rewrite app_nil_r; reflexivity].
  unfold bind, emit, get_world. cbn [world start].
  destruct (find _ (Item_table w)) as [item |] eqn:Hf; [| reflexivity].
  destruct (find_item_id _ _ _ Hf) as [_ Hid].
  cbv zeta. cbn [ret app].
  destruct (validate_on_submit m _); [| reflexivity].
  destruct (data (ItemForm_name (ItemForm_of (Some item) post))) as [n |] eqn:Hn;
    destruct (data (ItemForm_quantity (ItemForm_of (Some item) post))) as [q |] eqn:Hq;
    destruct (data (ItemForm_price (ItemForm_of (Some item) post))) as [p |] eqn:Hp;
    cbn -[db.update_Item]; rewrite ?Hid; try reflexivity;
    expose_commit;
    repeat match goal with
    | |- context [db.bindable_int ?x] => destruct (db.bindable_int x)
    | |- context [db.storable_float ?x] => destruct (db.storable_float x)
    end;
    cbn -[db.update_Item db.statements]; try reflexivity.
  rewrite three_updates. reflexivity.
Qed.

Lemma delete_item_run (id : N) (w : World) :
  run (delete_item id) w =
  if authenticated w then
    if db.bindable_id id then
      match find (fun r => (item_id r =? id)%N) (Item_table w) with
      | None => (guard_log w ++ [db_read Items], w, status 404)
      | Some _ =>
          (guard_log w ++
             [db_read Items; db_write Items;
              flashed Item_deleted_successfully success],
           db.with_items w
             (filter (fun r => negb (item_id r =? id)%N) (Item_table w)),
           redirect url_for_index)
      end
    else (guard_log w, w, status 500)
  else unauthorized_outcome w.
Proof.
  unfold delete_item. rewrite run_login_required.
  destruct (authenticated w); [| reflexivity].
  unfold run, bind at 1, db.Item_query_get_or_404.
  destruct (db.bindable_id id); [| cbn; rewrite app_nil_r; reflexivity].
  unfold bind, emit, get_world. cbn [world start].
  destruct (find _ (Item_table w)) as [item |] eqn:Hf; [| reflexivity].
  destruct (find_item_id _ _ _ Hf) as [_ Hid].
  cbn. rewrite Hid. reflexivity.
Qed.

Lemma export_items_run (float_repr : float -> string) (w : World) :
  run (export_items float_repr) w =
  if authenticated w
  then (guard_log w ++ [db_read Items], w, status 500)
  else unauthorized_outcome w.
Proof.
  unfold export_items. rewrite run_login_required.
  destruct (authenticated w); reflexivity.
Qed.

(** Opening a request into the cases of its view. *)
Ltac open_view :=
  unfold handle; cbn [view_of];
  first [ rewrite index_run | rewrite login_run | rewrite logout_run
        | rewrite register_run | rewrite add_item_run | rewrite edit_item_run
        | rewrite delete_item_run | rewrite export_items_run ];
  cbv zeta.

Ltac split_view :=
  repeat match goal with
  | |- context [if ?b then _ else _] => destruct b eqn:?
  | |- context [match ?x with Some _ => _ | None => _ end] => destruct x eqn:?
  end.

Lemma guard_log_reads_users (w : World) (e : effect) :
  In e (guard_log w) -> e = db_read Users.
Proof.
  unfold guard_log. destruct (session_user_id w); cbn; [| tauto].
  intros [<- | []]. reflexivity.
Qed.

Lemma not_in_guarded (w : World) (e : effect) (l : list effect) :
  e <> db_read Users -> ~ In e l -> ~ In e (guard_log w ++ l).
Proof.
  intros He Hl Hin. apply in_app_or in Hin. destruct Hin as [Hin | Hin]; [| auto].
  apply guard_log_reads_users in Hin. auto.
Qed.

Lemma not_in_guard (w : World) (e : effect) :
  e <> db_read Users -> ~ In e (guard_log w).
Proof. intros He Hin. apply guard_log_reads_users in Hin. auto. Qed.

Lemma edit_statements (id : N) (n : string) (q : Z) (p : float) (w : World)
  (e : effect) :
  In e (db.statements (edit_changes id n q p) w []) -> e = db_write Items.
Proof.
  unfold edit_changes. cbn [db.statements].
  repeat match goal with
  | |- context [if ?b then _ else _] => destruct b
  end; cbn; intuition congruence.
Qed.

Lemma not_in_edit_log (w : World) (id : N) (n : string) (q : Z) (p : float)
  (e : effect) (l : list effect) :
  e <> db_read Users -> e <> db_read Items -> e <> db_write Items -> ~ In e l ->
  ~ In e (guard_log w ++
          db_read Items :: db.statements (edit_changes id n q p) w [] ++ l).
Proof.
  intros H1 H2 H3 Hl Hin. apply in_app_or in Hin. destruct Hin as [Hin | Hin].
  { apply guard_log_reads_users in Hin. auto. }
  destruct Hin as [Hin | Hin]; [auto |].
  apply in_app_or in Hin. destruct Hin as [Hin | Hin]; [| auto].
  apply edit_statements in Hin. auto.
Qed.

Ltac no_such_effect :=
  cbn [fst snd log_of];
  first [ apply not_in_guard; discriminate
        | apply not_in_guarded; [discriminate | cbn; intuition discriminate]
        | apply not_in_edit_log;
            [discriminate | discriminate | discriminate
            | cbn; intuition discriminate] ].

Lemma map_edited_ids (id : N) (n : string) (q : Z) (p : float) (rows : list Item) :
  map item_id (map (edited id n q p) rows) = map item_id rows.
Proof.
  rewrite map_map. apply map_ext. intros r. unfold edited.
  destruct (item_id r =? id)%N; reflexivity.
Qed.

(** ** The tables under the exposed operations *)

Section Operations.

Variable generate_password_hash : string -> string -> string.
Variable check_password_hash : string -> string -> bool.
Variable float_repr : float -> string.

Local Abbreviation handle' :=
  (handle generate_password_hash check_password_hash float_repr).
Local Abbreviation reachable' :=
  (reachable generate_password_hash check_password_hash float_repr).

Lemma handle_users (r : Request) (w : World) :
  User_table (after (handle' r w)) = User_table w
  \/ exists salt m post u p,
       r = register_request salt m post
       /\ register_username post = Some u
       /\ register_password post = Some p
       /\ find (fun x => username x =? u) (User_table w) = None
       /\ User_table (after (handle' r w)) =
          User_table w ++
            [{| user_id := db.next_id (map user_id (User_table w));
                username := u;
                password_hash := generate_password_hash salt p |}].
Proof.
  unfold after. destruct r as [| m post | | salt m post | m post | id m post | id |];
    open_view; try (split_view; left; reflexivity).
  destruct (authenticated w); auto.
  destruct (validate_on_submit m _); auto.
  destruct (find _ (User_table w)) eqn:Hf; auto.
  destruct (register_username post) as [u |] eqn:Hu; auto.
  destruct (register_password post) as [p |] eqn:Hp; auto.
  right. exists salt, m, post, u, p. repeat split; auto.
Qed.

Lemma reachable_users (w w' : World) :
  reachable' w w' -> exists more, User_table w' = User_table w ++ more.
Proof.
  induction 1 as [| w1 r _ [more IH]].
  - exists []. rewrite app_nil_r. reflexivity.
  - destruct (handle_users r w1) as [-> | (salt & m & post & u & p & _ & _ & _ & _ & ->)].
    + eauto.
    + rewrite IH, <- app_assoc. eauto.
Qed.

(** C9. Login, logout, list, add, edit, delete and export leave the User
    table exactly as it was and log no write to it; register leaves it as
    it was or appends one record to it, with a fresh id, and never changes
    or removes a record that is there. *)
Theorem C9_user_table_only_grows_by_register (r : Request) (w : World) :
  match r with
  | register_request salt m post =>
      User_table (after (handle' r w)) = User_table w
      \/ exists u : User,
           User_table (after (handle' r w)) = User_table w ++ [u]
           /\ forall v, In v (User_table w) -> user_id v <> user_id u
  | _ =>
      User_table (after (handle' r w)) = User_table w
      /\ ~ In (db_write Users) (log_of (handle' r w))
  end.
Proof.
  destruct r as [| m post | | salt m post | m post | id m post | id |].
  4:{ destruct (handle_users (register_request salt m post) w)
        as [H | (salt' & m' & post' & u & p & _ & _ & _ & _ & H)]; [auto |].
      right. eexists. split; [exact H |].
      intros v Hv. cbn [user_id].
      pose proof (next_id_above _ _ (in_map user_id _ _ Hv)). lia. }
  all: split;
    [ match goal with
      | |- User_table (after (handle _ _ _ ?r _)) = _ =>
          destruct (handle_users r w) as [H | (? & ? & ? & ? & ? & Hr & _)];
          [exact H | discriminate Hr]
      end | ].
  all: unfold log_of; open_view; split_view; no_such_effect.
Qed.

Lemma NoDup_map_filter {A B} (f : A -> B) (keep : A -> bool) (l : list A) :
  NoDup (map f l) -> NoDup (map f (filter keep l)).
Proof.
  induction l as [| x l IH]; cbn; [auto |].
  intros Hnd. inversion Hnd as [| ? ? Hx Hnd']; subst.
  destruct (keep x); cbn; [| auto].
  constructor; [| auto].
  intros Hin. apply Hx. apply in_map_iff in Hin.
  destruct Hin as (y & Hy & Hin). apply filter_In in Hin.
  rewrite <- Hy. apply in_map. tauto.
Qed.

Lemma NoDup_ids_append (rows : list Item) (n : string) (q : Z) (p : float) :
  NoDup (map item_id rows) ->
  NoDup (map item_id (rows ++
    [{| item_id := db.next_id (map item_id rows);
        name := n; quantity := q; price := p |}])).
Proof.
  intros Hnd. rewrite map_app. cbn [map item_id].
  apply NoDup_app; [exact Hnd | repeat constructor; cbn; tauto |].
  intros a Ha [<- | []].
  pose proof (next_id_above _ _ Ha). lia.
Qed.

(** X1. The primary key of Item.  Every exposed operation keeps the item
    ids pairwise distinct, and changes the set of ids only so: add leaves
    the table or appends one Item whose id is larger than every id in it;
    edit keeps the ids, row by row; delete leaves the table or removes
    the rows of the given id and no other; every other request leaves the
    table as it was. *)
Theorem item_ids_stay_distinct (r : Request) (w : World) :
  NoDup (map item_id (Item_table w)) ->
  NoDup (map item_id (Item_table (after (handle' r w))))
  /\ match r with
     | add_item_request _ _ =>
         Item_table (after (handle' r w)) = Item_table w
         \/ exists it,
              Item_table (after (handle' r w)) = Item_table w ++ [it]
              /\ forall x, In x (Item_table w) -> (item_id x < item_id it)%N
     | edit_item_request _ _ _ =>
         map item_id (Item_table (after (handle' r w)))
           = map item_id (Item_table w)
     | POST_delete_item id =>
         Item_table (after (handle' r w)) = Item_table w
         \/ Item_table (after (handle' r w))
            = filter (fun x => negb (item_id x =? id)%N) (Item_table w)
     | _ => Item_table (after (handle' r w)) = Item_table w
     end.
Proof.
  intros Hnd. unfold after.
  destruct r as [| m post | | salt m post | m post | id m post | id |];
    open_view; split_view; cbn [snd fst Item_table db.with_items];
    try (split; [exact Hnd | first [reflexivity | left; reflexivity]]).
  - split; [apply NoDup_ids_append, Hnd |].
    right. eexists. split; [reflexivity |].
    intros x Hx. cbn [item_id]. apply next_id_above, in_map, Hx.
  - rewrite map_edited_ids. split; [exact Hnd | reflexivity].
  - split; [apply NoDup_map_filter, Hnd | right; reflexivity].
Qed.

End Operations.

Lemma item_ids_stay_distinct_witness :
  NoDup (map item_id (Item_table world_two_items))
  /\ map item_id (Item_table (after
       (handle plain_generate plain_check plain_repr
          (add_item_request POST widget_post) world_two_items))) = [1; 2; 3]%N
  /\ NoDup (map item_id (Item_table (after
       (handle plain_generate plain_check plain_repr
          (add_item_request POST widget_post) world_two_items)))).
Proof.
  assert (Hnd : NoDup (map item_id (Item_table world_two_items))).
  { cbn. repeat constructor; cbn; intuition discriminate. }
  split; [exact Hnd |]. split; [reflexivity |].
  apply (item_ids_stay_distinct plain_generate plain_check plain_repr
           (add_item_request POST widget_post) world_two_items Hnd).
Defined.

(** ** Logging in with registered credentials *)

Lemma find_app_none {A} (f : A -> bool) (l l' : list A) :
  find f l = None -> find f (l ++ l') = find f l'.
Proof.
  induction l as [| x l IH]; cbn; [reflexivity |].
  destruct (f x); [discriminate | exact IH].
Qed.

Lemma find_id_above (us : list User) :
  find (fun u => (user_id u =? db.next_id (map user_id us))%N) us = None.
Proof.
  destruct (find _ us) as [u |] eqn:Hf; [| reflexivity].
  apply find_some in Hf. destruct Hf as [Hin Heq]. apply N.eqb_eq in Heq.
  pose proof (next_id_above _ _ (in_map user_id _ _ Hin)). lia.
Qed.

Section Credentials.

Variable generate_password_hash : string -> string -> string.
Variable check_password_hash : string -> string -> bool.
Variable float_repr : float -> string.

(** The law of werkzeug's pair: a hash made from a password checks
    against that password, whatever the salt. *)
Hypothesis check_generated :
  forall salt p, check_password_hash (generate_password_hash salt p) p = true.

(** C3, amended. Let a registration of username u with password p have
    succeeded, and let any sequence of requests follow it.  Then, for a
    client that is not logged in, the User table holds the record made at
    registration, and
    - a login POST with a valid CSRF token, u and p succeeds: the session
      then names that user, who is the current user;
    - a login POST with a valid CSRF token, u and a non-blank password
      whose hash check fails flashes "Invalid username or password" and
      shows the login page again;
    - a login request for u with any password whose hash check fails,
      blank or not, leaves the world as it was: no session is
      established. *)
Theorem C3_login_with_registered_credentials
  (w0 w1 : World) (salt : string) (rpost : RegisterPost) (l0 : list effect)
  (u p : string) (w : World) :
  run (register generate_password_hash salt POST rpost) w0
    = (l0, w1, redirect url_for_login) ->
  register_username rpost = Some u ->
  register_password rpost = Some p ->
  reachable generate_password_hash check_password_hash float_repr w1 w ->
  authenticated w = false ->
  exists usr : User,
    In usr (User_table w)
    /\ username usr = u
    /\ password_hash usr = generate_password_hash salt p
    /\ (forall post,
          login_csrf_valid post = true ->
          login_username post = Some u ->
          login_password post = Some p ->
          run (login check_password_hash POST post) w =
            (guard_log w ++ [db_read Users; flashed Logged_in_successfully success],
             with_session w (Some (user_id usr)), redirect url_for_index)
          /\ current_user_of (with_session w (Some (user_id usr))) = Some usr)
    /\ (forall post p',
          login_csrf_valid post = true ->
          login_username post = Some u ->
          login_password post = Some p' ->
          strip p' <> "" ->
          check_password_hash (password_hash usr) p' = false ->
          run (login check_password_hash POST post) w =
            (guard_log w ++
               [db_read Users; flashed Invalid_username_or_password danger],
             w, render_template (login_html
                  (shown_errors POST (LoginForm_errors (LoginForm_of post))))))
    /\ (forall m post p',
          login_username post = Some u ->
          login_password post = Some p' ->
          check_password_hash (password_hash usr) p' = false ->
          exists l r, run (login check_password_hash m post) w = (l, w, r)
                      /\ r <> redirect url_for_index).
Proof.
  intros Hreg Hu Hp Hreach Hanon.
  (* what a successful registration did *)
  rewrite register_run in Hreg.
  destruct (authenticated w0); [discriminate |].
  destruct (validate_on_submit POST _) eqn:Hvalid; [| discriminate].
  rewrite Hu, Hp in Hreg. cbn [eq_opt_str] in Hreg.
  destruct (find _ (User_table w0)) eqn:Hfresh; [discriminate |].
  injection Hreg as _ Hw1. 
  apply RegisterForm_valid in Hvalid.
  destruct Hvalid as (_ & _ & Hpu & Hlu & Hpp & _ & _).
  rewrite Hu in Hpu, Hlu. rewrite Hp in Hpp.
  set (usr := {| user_id := db.next_id (map user_id (User_table w0));
                 username := u;
                 password_hash := generate_password_hash salt p |}) in *.
  destruct (reachable_users _ _ _ _ _ Hreach) as [more Hmore].
  rewrite <- Hw1 in Hmore. cbn [User_table db.with_users] in Hmore.
  rewrite <- app_assoc in Hmore. cbn [app] in Hmore.
  assert (Hbyname : find (fun r => eq_opt_str (Some (username r)) (Some u))
                         (User_table w) = Some usr).
  { rewrite Hmore. cbn [eq_opt_str]. rewrite (find_app_none _ _ _ Hfresh).
    cbn. rewrite String.eqb_refl. reflexivity. }
  assert (Hbyid : find (fun r => (user_id r =? user_id usr)%N) (User_table w)
                  = Some usr).
  { rewrite Hmore. rewrite (find_app_none _ _ _ (find_id_above (User_table w0))).
    cbn. rewrite N.eqb_refl. reflexivity. }
  assert (Hform : forall post p',
            login_csrf_valid post = true ->
            login_username post = Some u ->
            login_password post = Some p' ->
            strip p' <> "" ->
            validate_on_submit POST (LoginForm_errors (LoginForm_of post)) = true).
  { intros post p' Hc Hun Hpw Hnb. apply LoginForm_valid.
    rewrite Hun, Hpw. repeat split; auto; try tauto.
    exists p'. repeat split; auto. intros ->. apply Hnb. reflexivity. }
  exists usr. split.
  { rewrite Hmore. apply in_or_app. right. left. reflexivity. }
  do 2 (split; [reflexivity |]).
  split; [| split].
  - intros post Hc Hun Hpw. split.
    + rewrite login_run, Hanon, (Hform post p Hc Hun Hpw), Hun, Hbyname, Hpw.
      * cbn [password_hash usr]. rewrite check_generated. reflexivity.
      * destruct Hpp as (s & [= <-] & _ & Hs). exact Hs.
    + unfold current_user_of, with_session. cbn [session_user_id User_table].
      exact Hbyid.
  - intros post p' Hc Hun Hpw Hnb Hbad.
    rewrite login_run, Hanon, (Hform post p' Hc Hun Hpw Hnb), Hun, Hbyname, Hpw, Hbad.
    reflexivity.
  - intros m post p' Hun Hpw Hbad.
    rewrite login_run, Hanon, Hun, Hbyname, Hpw, Hbad.
    destruct (validate_on_submit m _); do 2 eexists; split; try reflexivity;
      discriminate.
Qed.

End Credentials.

Lemma plain_check_generated (salt p : string) :
  plain_check (plain_generate salt p) p = true.
Proof. apply String.eqb_refl. Qed.

(** C3, as stated, fails: Alice registers with the password "secret";
    a login for "alice" with the empty password, whose hash check fails,
    never reaches the check: the form is refused with "This field is
    required" and "Invalid username or password" is not flashed. *)
Lemma C3_blank_password_counterexample :
  run (register plain_generate "salt" POST alice_registration) empty_world =
    ([db_read Users; db_write Users; flashed Registration_successful success],
     world_alice, redirect url_for_login)
  /\ plain_check (password_hash alice) "" = false
  /\ run (login plain_check POST (alice_login "")) world_alice =
       ([], world_alice,
        render_template (login_html
          [("csrf_token", []); ("username", []);
           ("password", ["This field is required."])]))
  /\ ~ In (flashed Invalid_username_or_password danger)
          (log_of (run (login plain_check POST (alice_login "")) world_alice)).
Proof.
  repeat split; try reflexivity.
  cbn. tauto.
Qed.

Lemma C3_witness :
  run (register plain_generate "salt" POST alice_registration) empty_world =
    ([db_read Users; db_write Users; flashed Registration_successful success],
     world_alice, redirect url_for_login)
  /\ authenticated world_alice = false
  /\ exists usr : User,
       In usr (User_table world_alice)
       /\ run (login plain_check POST (alice_login "secret")) world_alice =
            ([db_read Users; flashed Logged_in_successfully success],
             with_session world_alice (Some (user_id usr)),
             redirect url_for_index).
Proof.
  split; [reflexivity |]. split; [reflexivity |].
  destruct (@C3_login_with_registered_credentials
              plain_generate plain_check plain_repr plain_check_generated
              empty_world world_alice "salt" alice_registration _
              "alice" "secret" world_alice
              eq_refl eq_refl eq_refl
              (reach_here plain_generate plain_check plain_repr world_alice)
              eq_refl)
    as (usr & Hin & _ & _ & Hok & _).
  exists usr. split; [exact Hin |].
  destruct (Hok (alice_login "secret") eq_refl eq_refl eq_refl) as [Hrun _].
  exact Hrun.
Defined.

(** ** The route guard *)

Lemma unauthorized_log_no_items (w : World) :
  no_item_access (log_of (unauthorized_outcome w)).
Proof.
  unfold no_item_access, log_of, unauthorized_outcome, guard_log. cbn [fst].
  destruct (session_user_id w); cbn; intuition discriminate.
Qed.

(** C8. A request without an authenticated session to any of the six
    guarded routes (list, logout, add, edit, delete, export) is answered
    by the guard alone: whatever the view under [@login_required] is, it
    is not run; the answer is a redirect to the login page, the world is
    left as it was, and the log holds no read and no write of Item (only,
    when the session names a user id that no longer loads, the guard's
    own read of User, and the flashed message). *)
Theorem C8_guard_redirects_unauthenticated
  (generate_password_hash : string -> string -> string)
  (check_password_hash : string -> string -> bool)
  (float_repr : float -> string) (w : World) :
  authenticated w = false ->
  (forall view : M Response,
     run (login_required view) w = unauthorized_outcome w)
  /\ (forall r : Request,
        auth_required r = true ->
        handle generate_password_hash check_password_hash float_repr r w
          = (guard_log w ++ [flashed Please_log_in_to_access_this_page message],
             w, redirect url_for_login)
        /\ no_item_access
             (log_of (handle generate_password_hash check_password_hash
                        float_repr r w))).
Proof.
  intros Hanon.
  assert (Hview : forall view : M Response,
            run (login_required view) w = unauthorized_outcome w).
  { intros view. rewrite run_login_required, Hanon. reflexivity. }
  split; [exact Hview |].
  intros r Hr.
  assert (Hrun : handle generate_password_hash check_password_hash float_repr r w
                 = unauthorized_outcome w).
  { unfold handle.
    destruct r; cbn [view_of]; try discriminate Hr; apply Hview. }
  rewrite Hrun. split; [reflexivity | apply unauthorized_log_no_items].
Qed.

Lemma C8_witness :
  authenticated world_alice = false
  /\ handle plain_generate plain_check plain_repr (POST_delete_item 1) world_alice
     = ([flashed Please_log_in_to_access_this_page message],
        world_alice, redirect url_for_login).
Proof.
  split; [reflexivity |].
  apply (C8_guard_redirects_unauthenticated plain_generate plain_check plain_repr
           world_alice eq_refl).
  reflexivity.
Defined.

(** ** Items that are not there, and deleting one that is *)


Lemma find_unique (rows : list Item) (i : Item) :
  NoDup (map item_id rows) -> In i rows ->
  find (fun r => (item_id r =? item_id i)%N) rows = Some i.
Proof.
  induction rows as [| x rows IH]; cbn; [tauto |].
  intros Hnd Hin. inversion Hnd as [| ? ? Hx Hnd']; subst.
  destruct Hin as [-> | Hin].
  - rewrite N.eqb_refl. reflexivity.
  - destruct (item_id x =? item_id i)%N eqn:E.
    + apply N.eqb_eq in E. exfalso. apply Hx. rewrite E.
      apply in_map. exact Hin.
    + apply IH; assumption.
Qed.

Lemma unique_by_id (rows : list Item) (i j : Item) :
  NoDup (map item_id rows) -> In i rows -> In j rows ->
  item_id i = item_id j -> i = j.
Proof.
  intros Hnd Hi Hj Hid.
  pose proof (find_unique rows i Hnd Hi) as Fi.
  pose proof (find_unique rows j Hnd Hj) as Fj.
  rewrite Hid in Fi. congruence.
Qed.




(** ** What the item form accepts *)

Lemma DataRequired_some {A} `{Py.Data A} (d : option A) :
  DataRequired d = passes ->
  exists v, d = Some v /\ truth v = true /\ blank_str v = false.
Proof.
  unfold DataRequired. destruct d as [v |]; [| discriminate].
  destruct (truth v) eqn:Et; destruct (blank_str v) eqn:Eb; cbn; try discriminate.
  eauto.
Qed.

Lemma DataRequired_intro {A} `{Py.Data A} (v : A) :
  truth v = true -> blank_str v = false -> DataRequired (Some v) = passes.
Proof. unfold DataRequired. intros -> ->. reflexivity. Qed.

Lemma ItemForm_valid (m : method) (obj : option Item) (post : ItemPost) :
  validate_on_submit m (ItemForm_errors (ItemForm_of obj post)) = true <->
  m = POST
  /\ item_csrf_valid post = true
  /\ DataRequired (data (ItemForm_name (ItemForm_of obj post))) = passes
  /\ DataRequired (data (ItemForm_quantity (ItemForm_of obj post))) = passes
  /\ DataRequired (data (ItemForm_price (ItemForm_of obj post))) = passes
  /\ item_quantity post <> unparsable
  /\ item_price post <> unparsable.
Proof.
  unfold validate_on_submit, ItemForm_errors, field_errors.
  rewrite andb_true_iff, !validate_cons, csrf_errors_nil, !required_errors.
  cbn [ItemForm_csrf_token ItemForm_of ItemForm_name ItemForm_quantity
       ItemForm_price process_errors StringField].
  assert (Hq : process_errors (IntegerField (option_map quantity obj)
                 (item_quantity post)) = [] <-> item_quantity post <> unparsable).
  { destruct (item_quantity post); cbn; intuition (discriminate || congruence). }
  assert (Hp : process_errors (FloatField (option_map price obj)
                 (item_price post)) = [] <-> item_price post <> unparsable).
  { destruct (item_price post); cbn; intuition (discriminate || congruence). }
  rewrite Hq, Hp.
  destruct m; cbn [is_submitted]; intuition discriminate.
Qed.

Lemma ItemForm_valid_add (post : ItemPost) :
  validate_on_submit POST (ItemForm_errors (ItemForm_of None post)) = true <->
  item_csrf_valid post = true /\ acceptable post.
Proof.
  rewrite ItemForm_valid. unfold acceptable.
  cbn [ItemForm_of ItemForm_name ItemForm_quantity ItemForm_price
       StringField data option_map].
  split.
  - intros (_ & Hc & Hn & Hq & Hp & _ & _). split; [exact Hc |].
    apply DataRequired_some in Hn, Hq, Hp.
    destruct Hn as (n & Hn & Hnt & Hnb).
    destruct Hq as (q & Hq & Hqt & _).
    destruct Hp as (p & Hp & Hpt & _).
    exists n, q, p.
    destruct (item_name post) as [n' |]; [| discriminate].
    destruct (item_quantity post) as [| | q']; try discriminate.
    destruct (item_price post) as [| | p']; try discriminate.
    cbn in Hq, Hp. injection Hn as <-. injection Hq as <-. injection Hp as <-.
    cbn in Hnb, Hqt, Hpt.
    apply String.eqb_neq in Hnb. apply negb_true_iff in Hqt, Hpt.
    apply Z.eqb_neq in Hqt. auto 10.
  - intros (Hc & n & q & p & -> & Hn & -> & Hq & -> & Hp).
    split; [reflexivity |]. split; [exact Hc |].
    assert (Hne : (n =? "") = false).
    { destruct n; [exfalso; apply Hn; reflexivity | reflexivity]. }
    apply String.eqb_neq in Hn. apply Z.eqb_neq in Hq.
    cbn. rewrite Hne, Hn, Hq, Hp. cbn. repeat split; discriminate.
Qed.




(** ** Editing an item *)

Lemma edit_frame (rows rows' : list Item) (i : Item)
  (n : string) (q : Z) (p : float) :
  NoDup (map item_id rows) ->
  In i rows ->
  rows' = rows \/ rows' = map (edited (item_id i) n q p) rows ->
  map item_id rows' = map item_id rows
  /\ (forall j, item_id j <> item_id i -> (In j rows' <-> In j rows))
  /\ (forall j, In j rows' -> item_id j = item_id i ->
        j = i
        \/ j = {| item_id := item_id i; name := n; quantity := q; price := p |}).
Proof.
  intros Hnd Hi [-> | ->].
  - split; [reflexivity |]. split; [tauto |].
    intros j Hj Hid. left. apply (unique_by_id _ _ _ Hnd Hj Hi Hid).
  - split; [apply map_edited_ids |]. split.
    + intros j Hj. rewrite in_map_iff. split.
      * intros (x & Hx & Hin). unfold edited in Hx.
        destruct (item_id x =? item_id i)%N eqn:E.
        -- subst j. cbn in Hj. apply N.eqb_eq in E. congruence.
        -- subst j. exact Hin.
      * intros Hin. exists j. split; [| exact Hin].
        unfold edited. apply N.eqb_neq in Hj. rewrite Hj. reflexivity.
    + intros j Hin Hj. right. apply in_map_iff in Hin. destruct Hin as (x & Hx & _).
      unfold edited in Hx. destruct (item_id x =? item_id i)%N eqn:E.
      * apply N.eqb_eq in E. rewrite <- Hx, E. reflexivity.
      * subst j. apply N.eqb_neq in E. contradiction.
Qed.

(** C6. For a logged-in user, an Item i of a store whose item ids are
    distinct, and a submission that the edit form of i accepts, with the
    name, quantity and price the form then holds (each the posted value,
    or the value i had when the field was not posted): whatever the
    answer, the Item table keeps its length, its order and every id,
    every other Item is in it exactly as before and nothing else appears,
    the row of i is i as it was or i with those three values, and the
    User table and the session are unchanged.  When the id of i and the
    quantity fit 64 bits and the price is not a NaN, the edit redirects
    to the list and the row of i carries the three values; otherwise the
    answer is a 500 error and the world is as it was. *)
Theorem C6_edit_changes_only_that_item
  (w : World) (i : Item) (m : method) (post : ItemPost) :
  authenticated w = true ->
  NoDup (map item_id (Item_table w)) ->
  In i (Item_table w) ->
  validate_on_submit m (ItemForm_errors (ItemForm_of (Some i) post)) = true ->
  exists n q p l w' r,
    run (edit_item (item_id i) m post) w = (l, w', r)
    /\ map item_id (Item_table w') = map item_id (Item_table w)
    /\ (forall j, item_id j <> item_id i ->
          (In j (Item_table w') <-> In j (Item_table w)))
    /\ (forall j, In j (Item_table w') -> item_id j = item_id i ->
          j = i
          \/ j = {| item_id := item_id i; name := n; quantity := q; price := p |})
    /\ (match item_name post with Some s => n = s | None => n = name i end)
    /\ (match item_quantity post with
        | parsed v => q = v | absent => q = quantity i | unparsable => False
        end)
    /\ (match item_price post with
        | parsed v => p = v | absent => p = price i | unparsable => False
        end)
    /\ User_table w' = User_table w
    /\ session_user_id w' = session_user_id w
    /\ (db.bindable_id (item_id i) = true ->
        db.bindable_int q = true ->
        db.storable_float p = true ->
        r = redirect url_for_index
        /\ Item_table w' = map (edited (item_id i) n q p) (Item_table w)
        /\ In {| item_id := item_id i; name := n; quantity := q; price := p |}
              (Item_table w'))
    /\ (db.bindable_id (item_id i) = false \/ db.bindable_int q = false
        \/ db.storable_float p = false ->
        r = status 500 /\ w' = w).
Proof.
  intros Hauth Hnd Hi Hv.
  pose proof (proj1 (ItemForm_valid m (Some i) post) Hv)
    as (_ & _ & Hn & Hq & Hp & Hqu & Hpu).
  apply DataRequired_some in Hn, Hq, Hp.
  destruct Hn as (n & Hn & _). destruct Hq as (q & Hq & _).
  destruct Hp as (p & Hp & _).
  exists n, q, p.
  assert (Hfields :
    (match item_name post with Some s => n = s | None => n = name i end)
    /\ (match item_quantity post with
        | parsed v => q = v | absent => q = quantity i | unparsable => False
        end)
    /\ (match item_price post with
        | parsed v => p = v | absent => p = price i | unparsable => False
        end)).
  { cbn [ItemForm_of ItemForm_name ItemForm_quantity ItemForm_price
         StringField data option_map] in Hn, Hq, Hp.
    split; [destruct (item_name post); congruence |].
    split; [destruct (item_quantity post); cbn in Hq; congruence |].
    destruct (item_price post); cbn in Hp; congruence. }
  assert (Hrun : run (edit_item (item_id i) m post) w =
            if db.bindable_id (item_id i) then
              if db.bindable_int q && db.storable_float p then
                (guard_log w ++
                   db_read Items ::
                   db.statements (edit_changes (item_id i) n q p) w [] ++
                   [flashed Item_updated_successfully success],
                 db.with_items w (map (edited (item_id i) n q p) (Item_table w)),
                 redirect url_for_index)
              else (guard_log w ++ [db_read Items], w, status 500)
            else (guard_log w, w, status 500)).
  { rewrite edit_item_run, Hauth.
    destruct (db.bindable_id (item_id i)); [| reflexivity].
    rewrite (find_unique _ _ Hnd Hi). cbv zeta. rewrite Hv, Hn, Hq, Hp.
    reflexivity. }
  rewrite Hrun.
  destruct (db.bindable_id (item_id i)) eqn:Hbi;
    [destruct (db.bindable_int q) eqn:Hbq;
       [destruct (db.storable_float p) eqn:Hsp |] |];
    cbn [andb]; do 3 eexists; (split; [reflexivity |]);
    cbn [Item_table User_table session_user_id db.with_items].
  - destruct (edit_frame (Item_table w) _ i n q p Hnd Hi (or_intror eq_refl))
      as (H1 & H2 & H3).
    repeat (split; [first [exact H1 | exact H2 | exact H3 | apply Hfields
                          | reflexivity] |]).
    split.
    + intros _ _ _. split; [reflexivity |]. split; [reflexivity |].
      apply in_map_iff. exists i. split; [| exact Hi].
      unfold edited. rewrite N.eqb_refl. reflexivity.
    + intros [H | [H | H]]; discriminate H.
  - destruct (edit_frame (Item_table w) _ i n q p Hnd Hi (or_introl eq_refl))
      as (H1 & H2 & H3).
    repeat (split; [first [exact H1 | exact H2 | exact H3 | apply Hfields
                          | reflexivity] |]).
    split; [intros _ _ H; discriminate H | intros _; split; reflexivity].
  - destruct (edit_frame (Item_table w) _ i n q p Hnd Hi (or_introl eq_refl))
      as (H1 & H2 & H3).
    repeat (split; [first [exact H1 | exact H2 | exact H3 | apply Hfields
                          | reflexivity] |]).
    split; [intros _ H; discriminate H | intros _; split; reflexivity].
  - destruct (edit_frame (Item_table w) _ i n q p Hnd Hi (or_introl eq_refl))
      as (H1 & H2 & H3).
    repeat (split; [first [exact H1 | exact H2 | exact H3 | apply Hfields
                          | reflexivity] |]).
    split; [intros H; discriminate H | intros _; split; reflexivity].
Qed.

Lemma C6_witness :
  authenticated world_two_items = true
  /\ NoDup (map item_id (Item_table world_two_items))
  /\ In apples (Item_table world_two_items)
  /\ validate_on_submit POST
       (ItemForm_errors (ItemForm_of (Some apples) rename_apples_post)) = true
  /\ exists n q p l w' r,
       run (edit_item 1 POST rename_apples_post) world_two_items = (l, w', r)
       /\ r = redirect url_for_index
       /\ Item_table w' = map (edited 1 n q p) (Item_table world_two_items)
       /\ n = "Green apples" /\ q = 3%Z /\ p = 0.75%float.
Proof.
  assert (Hnd : NoDup (map item_id (Item_table world_two_items))).
  { cbn. repeat constructor; cbn; intuition discriminate. }
  split; [reflexivity |]. split; [exact Hnd |].
  split; [left; reflexivity |]. split; [reflexivity |].
  destruct (C6_edit_changes_only_that_item world_two_items apples POST
              rename_apples_post eq_refl Hnd (or_introl eq_refl) eq_refl)
    as (n & q & p & l & w' & r & Hrun & _ & _ & _ & Hn & Hq & Hp & _ & _ & Hok & _).
  cbn in Hn, Hq, Hp. subst n q p.
  destruct (Hok eq_refl eq_refl eq_refl) as (Hr & Htab & _).
  exists "Green apples", 3%Z, 0.75%float, l, w', r. auto 10.
Defined.

(** ** Registration refuses what its form refuses *)

(** C10. A registration whose username has fewer than 4 or more than 150
    characters, whose password has fewer than 4 characters, or whose
    confirmation differs from the password (a missing field counting as
    empty) is refused: the world, and so the User table, is left as it
    was, nothing is written, the answer is not the success redirect; and
    for a client that is not logged in who POSTs it, the answer is the
    registration form again with a validation error. *)
Theorem C10_register_rejects_invalid
  (generate_password_hash : string -> string -> string)
  (salt : string) (m : method) (post : RegisterPost) (w : World) :
  (length_of (register_username post) < 4)%nat
  \/ (150 < length_of (register_username post))%nat
  \/ (length_of (register_password post) < 4)%nat
  \/ register_confirm_password post <> register_password post ->
  exists l r,
    run (register generate_password_hash salt m post) w = (l, w, r)
    /\ ~ In (db_write Users) l
    /\ ~ In (flashed Registration_successful success) l
    /\ r <> redirect url_for_login
    /\ (authenticated w = false -> m = POST ->
        r = render_template (register_html
              (RegisterForm_errors (RegisterForm_of post)))
        /\ validate (RegisterForm_errors (RegisterForm_of post)) = false).
Proof.
  intros Hbad.
  assert (Hv : validate_on_submit m (RegisterForm_errors (RegisterForm_of post))
               = false).
  { destruct (validate_on_submit m _) eqn:Hv; [| reflexivity].
    apply RegisterForm_valid in Hv.
    destruct Hv as (_ & _ & _ & Hul & _ & Hpl & Heq).
    exfalso. destruct Hbad as [H | [H | [H | H]]]; try lia. contradiction. }
  rewrite register_run, Hv.
  assert (Hlog : ~ In (db_write Users) (guard_log w)
                 /\ ~ In (flashed Registration_successful success) (guard_log w)).
  { unfold guard_log. destruct (session_user_id w); cbn; intuition discriminate. }
  destruct (authenticated w); do 2 eexists; (split; [reflexivity |]);
    (split; [apply Hlog |]); (split; [apply Hlog |]); (split; [discriminate |]).
  - discriminate.
  - intros _ ->. split; [reflexivity |]. exact Hv.
Qed.

Lemma C10_witness :
  register_confirm_password mismatch_post <> register_password mismatch_post
  /\ exists l r,
       run (register plain_generate "salt" POST mismatch_post) world_alice
         = (l, world_alice, r)
       /\ r = render_template (register_html
                (RegisterForm_errors (RegisterForm_of mismatch_post))).
Proof.
  assert (Hne : register_confirm_password mismatch_post
                <> register_password mismatch_post) by discriminate.
  split; [exact Hne |].
  destruct (C10_register_rejects_invalid plain_generate "salt" POST mismatch_post
              world_alice (or_intror (or_intror (or_intror Hne))))
    as (l & r & Hrun & _ & _ & _ & Hform).
  exists l, r. split; [exact Hrun |]. apply Hform; reflexivity.
Defined.

(** The bounds themselves, on concrete submissions: three characters are
    too few, 151 too many. *)
Example register_length_bounds :
  validate (RegisterForm_errors (RegisterForm_of
    {| register_csrf_valid := true; register_username := Some "bob";
       register_password := Some "secret";
       register_confirm_password := Some "secret" |})) = false
  /\ String.length long_name = 151
  /\ validate (RegisterForm_errors (RegisterForm_of
       {| register_csrf_valid := true; register_username := Some long_name;
          register_password := Some "secret";
          register_confirm_password := Some "secret" |})) = false
  /\ validate (RegisterForm_errors (RegisterForm_of
       {| register_csrf_valid := true; register_username := Some "robert";
          register_password := Some "secret";
          register_confirm_password := Some "secret" |})) = true.
Proof. repeat split; reflexivity. Qed.

(** ** Export *)

Lemma append_assoc (a b c : string) : ((a ++ b) ++ c = a ++ (b ++ c))%string.
Proof. induction a as [| x a IH]; cbn; [reflexivity | rewrite IH; reflexivity]. Qed.

Lemma write_rows_text (float_repr : float -> string) (items : list Item)
  (t : string) (c : Ctx) :
  for_each items {| gettext := t |} (fun item output =>
    lift (csv.writerow float_repr output (item_row item))) c
  = ([], c, inr {| gettext :=
       (t ++ fold_right String.append ""
               (map (fun item => csv.row_text
                       (map (csv.str float_repr) (item_row item))) items))%string |}).
Proof.
  revert t. induction items as [| item items IH]; intros t.
  - cbn. replace (t ++ "")%string with t; [reflexivity |].
    induction t as [| x t IHt]; cbn; [reflexivity | rewrite <- IHt; reflexivity].
  - cbn [for_each]. unfold bind at 1. cbn [csv.writerow io.write_str
      StringIO_file lift ret gettext].
    rewrite IH. cbn [app map fold_right]. rewrite append_assoc. reflexivity.
Qed.

(** What the rows come to on a text buffer: the header line and then one
    line for each Item, in the order of the table, each made of the id,
    the name, the quantity and the price, separated by commas and ended by
    CR LF.  This is the text the view is written to send. *)
Lemma write_inventory_text (float_repr : float -> string) (items : list Item)
  (c : Ctx) :
  write_inventory float_repr {| gettext := "" |} items c
  = ([], c, inr {| gettext :=
       (("ID,Name,Quantity,Price" ++ csv.lineterminator) ++
        fold_right String.append ""
          (map (fun item =>
                  csv.join
                    [csv.field (Py.str_of_int (Z.of_N (item_id item)));
                     csv.field (name item);
                     csv.field (Py.str_of_int (quantity item));
                     csv.field (float_repr (price item))]
                  ++ csv.lineterminator) items))%string |}).
Proof.
  unfold write_inventory, bind at 1.
  change (lift (csv.writerow float_repr {| gettext := "" |} header_row) c)
    with (@nil effect, c,
          @inr exception StringIO
            {| gettext := csv.row_text (map (csv.str float_repr) header_row) |}).
  cbv iota beta. rewrite write_rows_text. reflexivity.
Qed.

(** The export view never gets past its first [writerow]: the buffer is a
    [BytesIO] and the writer gives it a [str]. *)
Lemma export_items_always_fails (float_repr : float -> string) (w : World) :
  authenticated w = true ->
  run (export_items float_repr) w = (guard_log w ++ [db_read Items], w, status 500).
Proof. intros Hauth. rewrite export_items_run, Hauth. reflexivity. Qed.

(** C4, on the code. Alice is logged in and the store holds two Items;
    the export request reads the Items, then the first [writerow] raises
    [TypeError], and the answer is a 500 error: no CSV is produced. *)
Theorem C4_export_raises_TypeError (float_repr : float -> string) :
  csv.writerow float_repr {| getvalue := [] |} header_row = inl TypeError
  /\ run (export_items float_repr) world_two_items
     = ([db_read Users; db_read Items], world_two_items, status 500).
Proof. split; reflexivity. Qed.

(* ===================================================================== *)
(** * Further properties of the views *)
(* ===================================================================== *)

(** ** What a validated form holds *)

Lemma bad_token_login (m : method) (post : LoginPost) :
  login_csrf_valid post = false ->
  validate_on_submit m (LoginForm_errors (LoginForm_of post)) = false.
Proof.
  intros Hc. destruct (validate_on_submit m _) eqn:Hv; [| reflexivity].
  apply LoginForm_valid in Hv. destruct Hv as (_ & Hc' & _). congruence.
Qed.

Lemma bad_token_register (m : method) (post : RegisterPost) :
  register_csrf_valid post = false ->
  validate_on_submit m (RegisterForm_errors (RegisterForm_of post)) = false.
Proof.
  intros Hc. destruct (validate_on_submit m _) eqn:Hv; [| reflexivity].
  apply RegisterForm_valid in Hv. destruct Hv as (_ & Hc' & _). congruence.
Qed.

Lemma bad_token_item (m : method) (obj : option Item) (post : ItemPost) :
  item_csrf_valid post = false ->
  validate_on_submit m (ItemForm_errors (ItemForm_of obj post)) = false.
Proof.
  intros Hc. destruct (validate_on_submit m _) eqn:Hv; [| reflexivity].
  apply ItemForm_valid in Hv. destruct Hv as (_ & Hc' & _). congruence.
Qed.

Lemma LoginForm_valid_data (m : method) (post : LoginPost) :
  validate_on_submit m (LoginForm_errors (LoginForm_of post)) = true ->
  exists u p, login_username post = Some u /\ login_password post = Some p.
Proof.
  intros Hv. apply LoginForm_valid in Hv.
  destruct Hv as (_ & _ & (u & Hu & _) & _ & (p & Hp & _)). eauto.
Qed.

Lemma RegisterForm_valid_data (m : method) (post : RegisterPost) :
  validate_on_submit m (RegisterForm_errors (RegisterForm_of post)) = true ->
  exists u p,
    register_username post = Some u /\ register_password post = Some p
    /\ (4 <= String.length u <= 150)%nat /\ strip u <> "".
Proof.
  intros Hv. apply RegisterForm_valid in Hv.
  destruct Hv as (_ & _ & (u & Hu & _ & Hub) & Hul & (p & Hp & _) & _).
  rewrite Hu in Hul. cbn in Hul. eauto 10.
Qed.

Lemma ItemForm_valid_data (m : method) (obj : option Item) (post : ItemPost) :
  validate_on_submit m (ItemForm_errors (ItemForm_of obj post)) = true ->
  exists n q p,
    data (ItemForm_name (ItemForm_of obj post)) = Some n
    /\ data (ItemForm_quantity (ItemForm_of obj post)) = Some q
    /\ data (ItemForm_price (ItemForm_of obj post)) = Some p
    /\ strip n <> "" /\ q <> 0%Z /\ PrimFloat.eqb p 0%float = false.
Proof.
  intros Hv. apply ItemForm_valid in Hv.
  destruct Hv as (_ & _ & Hn & Hq & Hp & _).
  apply DataRequired_some in Hn, Hq, Hp.
  destruct Hn as (n & Hn & _ & Hnb). destruct Hq as (q & Hq & Hqt & _).
  destruct Hp as (p & Hp & Hpt & _).
  exists n, q, p. cbn in Hnb, Hqt, Hpt.
  apply String.eqb_neq in Hnb. apply negb_true_iff in Hqt, Hpt.
  apply Z.eqb_neq in Hqt. auto 10.
Qed.

Lemma valid_errors_login (form : LoginForm) :
  validate (LoginForm_errors form) = true ->
  LoginForm_errors form = [("csrf_token", []); ("username", []); ("password", [])].
Proof.
  unfold LoginForm_errors. rewrite !validate_cons.
  intros (-> & -> & -> & _). reflexivity.
Qed.

Section Frames.

Variable generate_password_hash : string -> string -> string.
Variable check_password_hash : string -> string -> bool.
Variable float_repr : float -> string.

Local Abbreviation handle' :=
  (handle generate_password_hash check_password_hash float_repr).

(** X2. The Item table changes only through add, edit and delete: list,
    login, logout, register and export return it exactly as it was and
    log no write to it. *)
Theorem item_table_changes_only_by_item_routes (r : Request) (w : World) :
  match r with
  | add_item_request _ _ | edit_item_request _ _ _ | POST_delete_item _ => True
  | _ =>
      Item_table (after (handle' r w)) = Item_table w
      /\ ~ In (db_write Items) (log_of (handle' r w))
  end.
Proof.
  destruct r; try exact I; unfold after, log_of; open_view; split_view;
    (split; [reflexivity | no_such_effect]).
Qed.

(** X3. The session changes only on login and logout: every other
    request, register included, returns the session user id it found. *)
Theorem session_changes_only_by_login_and_logout (r : Request) (w : World) :
  match r with
  | login_request _ _ | GET_logout => True
  | _ => session_user_id (after (handle' r w)) = session_user_id w
  end.
Proof.
  destruct r; try exact I; unfold after; open_view; split_view; reflexivity.
Qed.

(** X4. A logged-in client stays logged in, as the same user, through
    every request other than logout: the session and the User table are
    returned as they were, so a logged-in client can neither register a
    new user nor log in as another one.  Login and register answer such a
    client with the redirect to the list, whatever was posted, without
    looking at the form: the world is as it was and the log holds the
    user loader's read only. *)
Theorem logged_in_client_stays_logged_in (r : Request) (w : World) :
  authenticated w = true ->
  r <> GET_logout ->
  session_user_id (after (handle' r w)) = session_user_id w
  /\ User_table (after (handle' r w)) = User_table w
  /\ current_user_of (after (handle' r w)) = current_user_of w
  /\ authenticated (after (handle' r w)) = true
  /\ match r with
     | login_request _ _ | register_request _ _ _ =>
         handle' r w = (guard_log w, w, redirect url_for_index)
         /\ guard_log w = [db_read Users]
     | _ => True
     end.
Proof.
  intros Hauth Hr.
  assert (H : session_user_id (after (handle' r w)) = session_user_id w
              /\ User_table (after (handle' r w)) = User_table w).
  { destruct r; try congruence; unfold after; open_view; rewrite Hauth;
      split_view; split; reflexivity. }
  destruct H as [Hs Hu]. repeat split; auto.
  - unfold current_user_of. rewrite Hs, Hu. reflexivity.
  - unfold authenticated, current_user_of. rewrite Hs, Hu. exact Hauth.
  - assert (Hg : guard_log w = [db_read Users]).
    { unfold guard_log. unfold authenticated, current_user_of in Hauth.
      destruct (session_user_id w); [reflexivity | discriminate Hauth]. }
    destruct r; try exact I; (split; [| exact Hg]); open_view; rewrite Hauth;
      reflexivity.
Qed.

(** X5. No GET request writes to the database: whatever the route and
    whatever is sent with it, both tables are returned as they were and
    no write is logged.  (Logout, a GET, changes the session only.) *)
Theorem get_requests_do_not_write (r : Request) (w : World) :
  method_of r = GET ->
  User_table (after (handle' r w)) = User_table w
  /\ Item_table (after (handle' r w)) = Item_table w
  /\ forall t, ~ In (db_write t) (log_of (handle' r w)).
Proof.
  intros Hm. destruct r; cbn [method_of] in Hm; try discriminate; subst;
    unfold after, log_of; open_view; unfold validate_on_submit;
    cbn [is_submitted andb]; split_view;
    (split; [reflexivity | split; [reflexivity | intros t; no_such_effect]]).
Qed.

(** X6. A form posted with a missing or wrong CSRF token changes
    nothing: on login, register, add and edit alike the world is returned
    as it was, session included, and no write is logged. *)
Theorem bad_csrf_token_changes_nothing (r : Request) (w : World) :
  csrf_token_of r = Some false ->
  after (handle' r w) = w
  /\ forall t, ~ In (db_write t) (log_of (handle' r w)).
Proof.
  intros Hc. destruct r; cbn [csrf_token_of] in Hc; try discriminate;
    injection Hc as Hc; unfold after, log_of; open_view.
  - rewrite (bad_token_login _ _ Hc). split_view;
      (split; [reflexivity | intros t; no_such_effect]).
  - rewrite (bad_token_register _ _ Hc). split_view;
      (split; [reflexivity | intros t; no_such_effect]).
  - rewrite (bad_token_item _ _ _ Hc). split_view;
      (split; [reflexivity | intros t; no_such_effect]).
  - destruct (authenticated w);
      [| split; [reflexivity | intros t; no_such_effect]].
    destruct (db.bindable_id id);
      [| split; [reflexivity | intros t; no_such_effect]].
    destruct (find _ (Item_table w));
      [| split; [reflexivity | intros t; no_such_effect]].
    rewrite (bad_token_item _ _ _ Hc).
    split; [reflexivity | intros t; no_such_effect].
Qed.


Lemma handle_users_valid (r : Request) (w : World) :
  User_table (after (handle' r w)) = User_table w
  \/ exists u h,
       (4 <= String.length u <= 150)%nat /\ strip u <> ""
       /\ find (fun x => username x =? u) (User_table w) = None
       /\ User_table (after (handle' r w)) =
          User_table w ++
            [{| user_id := db.next_id (map user_id (User_table w));
                username := u; password_hash := h |}].
Proof.
  unfold after. destruct r; open_view; try (split_view; left; reflexivity).
  destruct (authenticated w); [left; reflexivity |].
  destruct (validate_on_submit m _) eqn:Hv; [| left; reflexivity].
  destruct (RegisterForm_valid_data _ _ Hv) as (u & p & Hu & Hp & Hl & Hb).
  rewrite Hu, Hp. cbn [eq_opt_str].
  destruct (find _ (User_table w)) eqn:Hf; [left; reflexivity |].
  right. exists u, (generate_password_hash salt p). auto.
Qed.

Lemma not_found_not_in (u : string) (us : list User) :
  find (fun x => username x =? u) us = None -> ~ In u (map username us).
Proof.
  intros Hf Hin. apply in_map_iff in Hin. destruct Hin as (x & Hx & Hin).
  apply (find_none _ _ Hf) in Hin. cbn in Hin. rewrite Hx, String.eqb_refl in Hin.
  discriminate.
Qed.

(** X8. The User table keeps its shape under every exposed operation:
    if the usernames are pairwise distinct, the ids are pairwise distinct
    and every username has 4 to 150 characters and is not blank, then the
    same holds after the request. *)
Theorem user_table_invariants (r : Request) (w : World) :
  NoDup (map username (User_table w)) ->
  NoDup (map user_id (User_table w)) ->
  Forall user_ok (User_table w) ->
  NoDup (map username (User_table (after (handle' r w))))
  /\ NoDup (map user_id (User_table (after (handle' r w))))
  /\ Forall user_ok (User_table (after (handle' r w))).
Proof.
  intros Hn Hi Hok.
  destruct (handle_users_valid r w) as [-> | (u & h & Hl & Hb & Hf & ->)]; [auto |].
  rewrite !map_app. cbn [map username user_id]. repeat split.
  - apply NoDup_app; [exact Hn | repeat constructor; cbn; tauto |].
    intros a Ha [<- | []]. exact (not_found_not_in _ _ Hf Ha).
  - apply NoDup_app; [exact Hi | repeat constructor; cbn; tauto |].
    intros a Ha [<- | []]. pose proof (next_id_above _ _ Ha). lia.
  - apply Forall_app. split; [exact Hok |].
    constructor; [split; cbn; [exact Hl | exact Hb] | constructor].
Qed.

(** X9. The Item table keeps what the item form demands: if every Item
    has a name that is not blank, a quantity other than 0 and a price
    other than zero, then so has every Item after any request.  In
    particular no edit can bring a quantity or a price to zero. *)
Theorem item_table_invariant (r : Request) (w : World) :
  Forall item_ok (Item_table w) ->
  Forall item_ok (Item_table (after (handle' r w))).
Proof.
  intros Hok. unfold after. destruct r; open_view;
    try (split_view; exact Hok).
  - destruct (authenticated w); [| exact Hok].
    destruct (validate_on_submit m _) eqn:Hv; [| exact Hok].
    destruct (ItemForm_valid_data _ _ _ Hv)
      as (n & q & p & -> & -> & -> & Hn & Hq & Hp).
    destruct (db.bindable_int q && db.storable_float p); [| exact Hok].
    cbn [snd fst Item_table db.with_items].
    apply Forall_app. split; [exact Hok |].
    constructor; [repeat split; cbn; assumption | constructor].
  - destruct (authenticated w); [| exact Hok].
    destruct (db.bindable_id id); [| exact Hok].
    destruct (find _ (Item_table w)); [| exact Hok].
    destruct (validate_on_submit m _) eqn:Hv; [| exact Hok].
    destruct (ItemForm_valid_data _ _ _ Hv)
      as (n & q & p & -> & -> & -> & Hn & Hq & Hp).
    destruct (db.bindable_int q && db.storable_float p); [| exact Hok].
    cbn [snd fst Item_table db.with_items].
    rewrite Forall_forall in *. intros x Hx. apply in_map_iff in Hx.
    destruct Hx as (y & <- & Hy). unfold edited.
    destruct (item_id y =? id)%N; [repeat split; cbn; assumption | auto].
  - destruct (authenticated w); [| exact Hok].
    destruct (db.bindable_id id); [| exact Hok].
    destruct (find _ (Item_table w)); [| exact Hok].
    cbn [snd fst Item_table db.with_items].
    rewrite Forall_forall in *. intros x Hx. apply filter_In in Hx. apply Hok, Hx.
Qed.

(** X10. Logout ends the session and touches nothing else: for a
    logged-in client it clears the session user id, leaves both tables as
    they were and redirects to the login page; from then on every guarded
    route (list, logout, add, edit, delete, export) redirects that client
    to the login page without running. *)
Theorem logout_ends_the_session (w : World) :
  authenticated w = true ->
  run logout w =
    (guard_log w ++ [flashed You_have_been_logged_out info],
     with_session w None, redirect url_for_login)
  /\ User_table (with_session w None) = User_table w
  /\ Item_table (with_session w None) = Item_table w
  /\ forall r,
       auth_required r = true ->
       handle' r (with_session w None) =
         ([flashed Please_log_in_to_access_this_page message],
          with_session w None, redirect url_for_login).
Proof.
  intros Hauth. split; [rewrite logout_run, Hauth; reflexivity |].
  do 2 (split; [reflexivity |]).
  intros r Hr. destruct r; try discriminate Hr; open_view; reflexivity.
Qed.

(** X11. A failed login does not tell an unknown username from a wrong
    password: for a client that is not logged in and a form that
    validates, both end in exactly the same log, the same unchanged world
    and the same page, with "Invalid username or password" flashed. *)
Theorem login_failure_is_uniform (m : method) (post : LoginPost) (w : World) :
  authenticated w = false ->
  validate_on_submit m (LoginForm_errors (LoginForm_of post)) = true ->
  (forall usr p,
     find (fun r => eq_opt_str (Some (username r)) (login_username post))
          (User_table w) = Some usr ->
     login_password post = Some p ->
     check_password_hash (password_hash usr) p = false) ->
  run (login check_password_hash m post) w =
    (guard_log w ++ [db_read Users; flashed Invalid_username_or_password danger],
     w,
     render_template
       (login_html [("csrf_token", []); ("username", []); ("password", [])])).
Proof.
  intros Hanon Hv Hbad.
  assert (He : shown_errors m (LoginForm_errors (LoginForm_of post))
               = [("csrf_token", []); ("username", []); ("password", [])]).
  { unfold validate_on_submit in Hv. apply andb_true_iff in Hv.
    destruct Hv as [Hm Hv]. unfold shown_errors. rewrite Hm.
    apply valid_errors_login, Hv. }
  destruct (LoginForm_valid_data _ _ Hv) as (u & p & Hu & Hp).
  rewrite login_run, Hanon, Hv, He, Hp.
  destruct (find _ (User_table w)) as [usr |] eqn:Hf; [| reflexivity].
  rewrite (Hbad usr p eq_refl Hp). reflexivity.
Qed.

(** X12. Registration creates the user and the user can be looked up:
    for a client that is not logged in, a form that validates and a
    username no User has, register appends exactly one User carrying the
    posted username, the hash of the posted password and an id no other
    User has, leaves the Item table and the session alone, and redirects
    to the login page; looking the new table up by that username, or by
    that id, returns the new User. *)
Theorem register_creates_the_user
  (salt : string) (m : method) (post : RegisterPost) (w : World) :
  authenticated w = false ->
  validate_on_submit m (RegisterForm_errors (RegisterForm_of post)) = true ->
  (forall x, In x (User_table w) -> register_username post <> Some (username x)) ->
  exists u p usr w1,
    register_username post = Some u
    /\ register_password post = Some p
    /\ usr = {| user_id := db.next_id (map user_id (User_table w));
                username := u;
                password_hash := generate_password_hash salt p |}
    /\ run (register generate_password_hash salt m post) w =
         (guard_log w ++
            [db_read Users; db_write Users; flashed Registration_successful success],
          w1, redirect url_for_login)
    /\ User_table w1 = User_table w ++ [usr]
    /\ Item_table w1 = Item_table w
    /\ session_user_id w1 = session_user_id w
    /\ (forall x, In x (User_table w) -> user_id x <> user_id usr)
    /\ find (fun r => username r =? u) (User_table w1) = Some usr
    /\ find (fun r => (user_id r =? user_id usr)%N) (User_table w1) = Some usr.
Proof.
  intros Hanon Hv Hfree.
  destruct (RegisterForm_valid_data _ _ Hv) as (u & p & Hu & Hp & _).
  assert (Hf : find (fun r => username r =? u) (User_table w) = None).
  { destruct (find _ (User_table w)) as [x |] eqn:Hf; [| reflexivity].
    apply find_some in Hf. destruct Hf as [Hin Heq]. apply String.eqb_eq in Heq.
    destruct (Hfree x Hin). rewrite Hu, Heq. reflexivity. }
  exists u, p. eexists. eexists.
  split; [exact Hu |]. split; [exact Hp |]. split; [reflexivity |].
  rewrite register_run, Hanon, Hv, Hu, Hp. cbn [eq_opt_str]. rewrite Hf.
  split; [reflexivity |].
  cbn [User_table Item_table session_user_id db.with_users user_id].
  do 3 (split; [reflexivity |]).
  split.
  { intros x Hx. pose proof (next_id_above _ _ (in_map user_id _ _ Hx)). lia. }
  split.
  - rewrite (find_app_none _ _ _ Hf). cbn. rewrite String.eqb_refl. reflexivity.
  - rewrite (find_app_none _ _ _ (find_id_above (User_table w))). cbn.
    rewrite N.eqb_refl. reflexivity.
Qed.

(** X13. A registered username stays taken: once a registration of u has
    succeeded, then after any sequence of requests every further
    registration for u leaves the User table as it is, and one that
    validates, from a client that is not logged in, is answered with
    "Username already exists". *)
Theorem registered_username_stays_taken
  (w0 w1 w : World) (salt : string) (m : method) (post : RegisterPost)
  (l0 : list effect) :
  run (register generate_password_hash salt m post) w0
    = (l0, w1, redirect url_for_login) ->
  reachable generate_password_hash check_password_hash float_repr w1 w ->
  forall salt' m' post',
    register_username post' = register_username post ->
    User_table (after (run (register generate_password_hash salt' m' post') w))
      = User_table w
    /\ (authenticated w = false ->
        validate_on_submit m' (RegisterForm_errors (RegisterForm_of post')) = true ->
        run (register generate_password_hash salt' m' post') w =
          (guard_log w ++ [db_read Users; flashed Username_already_exists danger],
           w, redirect url_for_register)).
Proof.
  intros Hreg Hreach salt' m' post' Hsame.
  rewrite register_run in Hreg.
  destruct (authenticated w0); [discriminate |].
  destruct (validate_on_submit m _) eqn:Hv; [| discriminate].
  destruct (RegisterForm_valid_data _ _ Hv) as (u & p & Hu & Hp & _).
  rewrite Hu, Hp in Hreg. cbn [eq_opt_str] in Hreg.
  destruct (find _ (User_table w0)) eqn:Hfresh; [discriminate |].
  injection Hreg as _ Hw1.
  destruct (reachable_users _ _ _ _ _ Hreach) as [more Hmore].
  rewrite <- Hw1 in Hmore. cbn [User_table db.with_users] in Hmore.
  rewrite <- app_assoc in Hmore. cbn [app] in Hmore.
  assert (Hf : exists usr,
            find (fun r => eq_opt_str (Some (username r)) (register_username post'))
                 (User_table w) = Some usr).
  { rewrite Hsame, Hu, Hmore. cbn [eq_opt_str].
    rewrite (find_app_none _ _ _ Hfresh). cbn. rewrite String.eqb_refl. eauto. }
  destruct Hf as [usr Hf]. unfold after. rewrite register_run, Hf.
  split.
  - destruct (authenticated w); [reflexivity |].
    destruct (validate_on_submit m' _); reflexivity.
  - intros -> ->. reflexivity.
Qed.

(** X14. No request is ever answered with a file, and export never
    succeeds: for a logged-in client, on any store, the empty one
    included, the export view reads the Items, fails on its first row and
    answers 500, leaving the world as it was. *)
Theorem export_never_returns_a_file (r : Request) (w : World) :
  (forall body mimetype filename attach,
     response_of (handle' r w) <> send_file body mimetype filename attach)
  /\ (authenticated w = true ->
      handle' GET_export w = (guard_log w ++ [db_read Items], w, status 500)).
Proof.
  split.
  - intros body mimetype filename attach. unfold response_of.
    destruct r; open_view; split_view; cbn [snd]; discriminate.
  - intros Hauth. open_view. rewrite Hauth. reflexivity.
Qed.

End Frames.

(** ** Adding, editing and deleting, one after the other *)

Lemma filter_keeps_all {A} (keep : A -> bool) (l : list A) :
  (forall x, In x l -> keep x = true) -> filter keep l = l.
Proof.
  induction l as [| x l IH]; cbn; [reflexivity |].
  intros H. rewrite (H x (or_introl eq_refl)), IH; [reflexivity |].
  intros y Hy. apply H. right. exact Hy.
Qed.

Lemma find_none_of_all {A} (f : A -> bool) (l : list A) :
  (forall x, In x l -> f x = false) -> find f l = None.
Proof.
  induction l as [| x l IH]; cbn; [reflexivity |].
  intros H. rewrite (H x (or_introl eq_refl)). apply IH.
  intros y Hy. apply H. right. exact Hy.
Qed.

Lemma find_after_filter (id : N) (rows : list Item) :
  find (fun r => (item_id r =? id)%N)
       (filter (fun r => negb (item_id r =? id)%N) rows) = None.
Proof.
  induction rows as [| x rows IH]; cbn; [reflexivity |].
  destruct (item_id x =? id)%N eqn:E; cbn; [exact IH |].
  rewrite E. exact IH.
Qed.

Lemma edited_twice (id : N) (n : string) (q : Z) (p : float) (rows : list Item) :
  map (edited id n q p) (map (edited id n q p) rows) = map (edited id n q p) rows.
Proof.
  rewrite map_map. apply map_ext. intros r. unfold edited.
  destruct (item_id r =? id)%N eqn:E; cbn [item_id]; rewrite E; reflexivity.
Qed.

(** X15. Add, then delete what was added, gives the world back: for a
    logged-in client and a submission add accepts whose quantity fits 64
    bits and whose price is not a NaN, on a table whose next id fits 64
    bits, the new Item gets the id after the largest in the table, and
    deleting that id returns the Item table, and the whole world, to what
    it was before the add. *)
Theorem add_then_delete_restores
  (w : World) (post : ItemPost) (q : Z) (p : float) :
  authenticated w = true ->
  item_csrf_valid post = true ->
  acceptable post ->
  item_quantity post = parsed q ->
  item_price post = parsed p ->
  db.bindable_int q = true ->
  db.storable_float p = true ->
  db.bindable_id (db.next_id (map item_id (Item_table w))) = true ->
  exists l1 w1 it l2,
    run (add_item POST post) w = (l1, w1, redirect url_for_index)
    /\ Item_table w1 = Item_table w ++ [it]
    /\ item_id it = db.next_id (map item_id (Item_table w))
    /\ quantity it = q /\ price it = p
    /\ run (delete_item (item_id it)) w1 = (l2, w, redirect url_for_index).
Proof.
  intros Hauth Hc Ha Hpq Hpp Hbq Hsp Hbid.
  pose proof (proj2 (ItemForm_valid_add post) (conj Hc Ha)) as Hv.
  destruct (ItemForm_valid_data _ _ _ Hv) as (n & q' & p' & Hn & Hq & Hp & _).
  assert (Hq' : q' = q).
  { cbn in Hq. rewrite Hpq in Hq. cbn in Hq. congruence. }
  assert (Hp' : p' = p).
  { cbn in Hp. rewrite Hpp in Hp. cbn in Hp. congruence. }
  subst q' p'.
  rewrite add_item_run, Hauth. cbv zeta. rewrite Hv, Hn, Hq, Hp, Hbq, Hsp.
  cbn [andb].
  do 4 eexists. split; [reflexivity |].
  cbn [Item_table db.with_items item_id quantity price].
  do 4 (split; [reflexivity |]).
  rewrite delete_item_run.
  change (authenticated (db.with_items w _)) with (authenticated w).
  rewrite Hauth. cbn [item_id]. rewrite Hbid. cbn [Item_table db.with_items].
  set (new := db.next_id (map item_id (Item_table w))).
  assert (Hold : forall x, In x (Item_table w) -> (item_id x =? new)%N = false).
  { intros x Hx. apply N.eqb_neq. apply next_id_fresh, Hx. }
  rewrite (find_app_none _ _ _ (find_none_of_all _ _ Hold)).
  cbn [find item_id]. rewrite N.eqb_refl.
  rewrite filter_app, filter_keeps_all.
  2:{ intros x Hx. rewrite (Hold x Hx). reflexivity. }
  cbn [filter item_id]. rewrite N.eqb_refl. cbn [negb]. rewrite app_nil_r.
  destruct w as [us rows s]. reflexivity.
Qed.

(** X16. Nothing is left under a deleted id: after a logged-in client's
    delete of an id that fits 64 bits, whether or not an Item had it, a
    second delete of that id, and an edit of it, answer 404 and change
    nothing.  For an id that does not fit 64 bits the first delete, the
    second and every edit answer with a 500 error and change nothing. *)
Theorem second_delete_is_not_found (w : World) (id : N) :
  authenticated w = true ->
  exists l1 w1 r1,
    run (delete_item id) w = (l1, w1, r1)
    /\ (db.bindable_id id = true ->
        run (delete_item id) w1 = (guard_log w1 ++ [db_read Items], w1, status 404)
        /\ forall m post,
             run (edit_item id m post) w1
               = (guard_log w1 ++ [db_read Items], w1, status 404))
    /\ (db.bindable_id id = false ->
        w1 = w /\ r1 = status 500
        /\ run (delete_item id) w1 = (guard_log w1, w1, status 500)
        /\ forall m post,
             run (edit_item id m post) w1 = (guard_log w1, w1, status 500)).
Proof.
  intros Hauth. rewrite delete_item_run, Hauth.
  destruct (db.bindable_id id) eqn:Hid.
  - destruct (find _ (Item_table w)) as [i |] eqn:Hf; do 3 eexists;
      (split; [reflexivity |]); (split; [intros _ | discriminate]).
    + split; [| intros m post]; rewrite ?delete_item_run, ?edit_item_run;
        change (authenticated (db.with_items w _)) with (authenticated w);
        rewrite Hauth, Hid; cbn [Item_table db.with_items];
        rewrite find_after_filter; reflexivity.
    + split; [| intros m post];
        rewrite ?delete_item_run, ?edit_item_run, Hauth, Hid, Hf; reflexivity.
  - do 3 eexists. split; [reflexivity |]. split; [discriminate |].
    intros _. do 2 (split; [reflexivity |]).
    split; [| intros m post];
      rewrite ?delete_item_run, ?edit_item_run, Hauth, Hid; reflexivity.
Qed.

Lemma unchanged_row_sends_nothing
  (id : N) (n : string) (q : Z) (p : float) (w : World) :
  find (fun r => (item_id r =? id)%N) (Item_table w)
    = Some {| item_id := id; name := n; quantity := q; price := p |} ->
  db.storable_float p = true ->
  db.statements (edit_changes id n q p) w [] = [].
Proof.
  intros Hf Hp. unfold edit_changes. cbn [db.statements db.changes_row].
  rewrite Hf. cbn [name quantity price].
  rewrite String.eqb_refl, Z.eqb_refl.
  assert (He : PrimFloat.eqb p p = true).
  { unfold db.storable_float, PrimFloat.is_nan in Hp.
    rewrite negb_involutive in Hp. exact Hp. }
  rewrite He. reflexivity.
Qed.

(** X17. Editing is idempotent: for a logged-in client, distinct item ids,
    an Item i whose id fits 64 bits and a submission that the edit form of
    i accepts, holding a quantity that fits 64 bits and a price that is
    not a NaN, the edit is accepted, sending the same submission a second
    time is accepted again and leaves the world exactly as the first edit
    left it, and the second time no write is sent to the database. *)
Theorem edit_is_idempotent
  (w : World) (i : Item) (m : method) (post : ItemPost) (q : Z) (p : float) :
  authenticated w = true ->
  NoDup (map item_id (Item_table w)) ->
  In i (Item_table w) ->
  validate_on_submit m (ItemForm_errors (ItemForm_of (Some i) post)) = true ->
  db.bindable_id (item_id i) = true ->
  data (ItemForm_quantity (ItemForm_of (Some i) post)) = Some q ->
  data (ItemForm_price (ItemForm_of (Some i) post)) = Some p ->
  db.bindable_int q = true ->
  db.storable_float p = true ->
  exists l1 w1,
    run (edit_item (item_id i) m post) w = (l1, w1, redirect url_for_index)
    /\ run (edit_item (item_id i) m post) w1 =
         (guard_log w1 ++ [db_read Items; flashed Item_updated_successfully success],
          w1, redirect url_for_index).
Proof.
  intros Hauth Hnd Hi Hv Hbid Hq Hp Hbq Hsp.
  destruct (ItemForm_valid_data _ _ _ Hv) as (n & q0 & p0 & Hn & Hq0 & Hp0 & _).
  assert (q0 = q) by congruence. assert (p0 = p) by congruence. subst q0 p0.
  rewrite edit_item_run, Hauth, Hbid, (find_unique _ _ Hnd Hi). cbv zeta.
  rewrite Hv, Hn, Hq, Hp, Hbq, Hsp. cbn [andb].
  do 2 eexists. split; [reflexivity |].
  set (i' := {| item_id := item_id i; name := n; quantity := q; price := p |}).
  rewrite edit_item_run.
  change (authenticated (db.with_items w _)) with (authenticated w).
  change (guard_log (db.with_items w ?x)) with (guard_log w).
  rewrite Hauth, Hbid. cbn [Item_table db.with_items].
  assert (Hnd' : NoDup (map item_id (map (edited (item_id i) n q p) (Item_table w)))).
  { rewrite map_edited_ids. exact Hnd. }
  assert (Hi' : In i' (map (edited (item_id i) n q p) (Item_table w))).
  { apply in_map_iff. exists i. split; [| exact Hi].
    unfold edited. rewrite N.eqb_refl. reflexivity. }
  pose proof (find_unique _ _ Hnd' Hi') as Hf. cbn [item_id i'] in Hf.
  rewrite Hf. cbv zeta.
  assert (Hn' : data (ItemForm_name (ItemForm_of (Some i') post)) = Some n).
  { cbn in Hn |- *. destruct (item_name post); [exact Hn | reflexivity]. }
  assert (Hq' : data (ItemForm_quantity (ItemForm_of (Some i') post)) = Some q).
  { cbn in Hq |- *. destruct (item_quantity post); cbn in Hq |- *;
      [reflexivity | exact Hq | exact Hq]. }
  assert (Hp' : data (ItemForm_price (ItemForm_of (Some i') post)) = Some p).
  { cbn in Hp |- *. destruct (item_price post); cbn in Hp |- *;
      [reflexivity | exact Hp | exact Hp]. }
  assert (Hv' : validate_on_submit m (ItemForm_errors (ItemForm_of (Some i') post))
                = true).
  { apply ItemForm_valid. apply ItemForm_valid in Hv.
    destruct Hv as (Hm & Hc & H1 & H2 & H3 & H4 & H5).
    rewrite Hn in H1. rewrite Hq in H2. rewrite Hp in H3.
    rewrite Hn', Hq', Hp'. auto 10. }
  rewrite Hv', Hn', Hq', Hp', Hbq, Hsp, edited_twice. cbn [andb].
  rewrite (unchanged_row_sends_nothing (item_id i) n q p
             (db.with_items w (map (edited (item_id i) n q p) (Item_table w)))
             Hf Hsp).
  reflexivity.
Qed.

(** ** What the forms accept, field by field *)

Lemma present_iff (d : option string) :
  present d <-> exists s, d = Some s /\ strip s <> "".
Proof.
  unfold present. split.
  - intros (s & Hs & _ & Hb). eauto.
  - intros (s & Hs & Hb). exists s. repeat split; auto.
    intros ->. apply Hb. reflexivity.
Qed.

(** X18. The login form accepts exactly the POSTs with a valid CSRF
    token, a username of 4 to 150 characters that is not blank, and a
    password that is not blank (of any length). *)
Theorem login_form_accepts_exactly (m : method) (post : LoginPost) :
  validate_on_submit m (LoginForm_errors (LoginForm_of post)) = true <->
  m = POST
  /\ login_csrf_valid post = true
  /\ (exists u, login_username post = Some u
                /\ (4 <= String.length u <= 150)%nat /\ strip u <> "")
  /\ (exists p, login_password post = Some p /\ strip p <> "").
Proof.
  rewrite LoginForm_valid, !present_iff. split.
  - intros (Hm & Hc & (u & Hu & Hub) & Hl & Hp). rewrite Hu in Hl. cbn in Hl.
    repeat split; eauto.
  - intros (Hm & Hc & (u & Hu & Hl & Hub) & Hp). rewrite Hu. cbn.
    repeat split; eauto; lia.
Qed.

(** X19. The registration form accepts exactly the POSTs with a valid
    CSRF token, a username of 4 to 150 characters that is not blank, a
    password of at least 4 characters that is not blank, and a
    confirmation equal to the password. *)
Theorem register_form_accepts_exactly (m : method) (post : RegisterPost) :
  validate_on_submit m (RegisterForm_errors (RegisterForm_of post)) = true <->
  m = POST
  /\ register_csrf_valid post = true
  /\ (exists u, register_username post = Some u
                /\ (4 <= String.length u <= 150)%nat /\ strip u <> "")
  /\ (exists p, register_password post = Some p
                /\ (4 <= String.length p)%nat /\ strip p <> ""
                /\ register_confirm_password post = Some p).
Proof.
  rewrite RegisterForm_valid, !present_iff. split.
  - intros (Hm & Hc & (u & Hu & Hub) & Hul & (p & Hp & Hpb) & Hpl & Heq).
    rewrite Hu in Hul. rewrite Hp in Hpl, Heq. cbn in Hul, Hpl.
    repeat split; eauto 10.
  - intros (Hm & Hc & (u & Hu & Hul & Hub) & (p & Hp & Hpl & Hpb & Heq)).
    rewrite Hu, Hp, Heq. cbn. repeat split; eauto; lia.
Qed.

(** X20. On edit the form is filled from the Item first, so a field that
    is not posted keeps the Item's value: for an Item with a name that is
    not blank and a quantity and price other than zero, the edit form
    accepts exactly the POSTs with a valid CSRF token in which each field
    is either left out or posted with a value add would take (a name that
    is not blank, an integer other than 0, a number other than zero). *)
Theorem edit_form_accepts_exactly (i : Item) (m : method) (post : ItemPost) :
  item_ok i ->
  validate_on_submit m (ItemForm_errors (ItemForm_of (Some i) post)) = true <->
  m = POST
  /\ item_csrf_valid post = true
  /\ match item_name post with
     | None => True
     | Some n => strip n <> ""
     end
  /\ match item_quantity post with
     | absent => True
     | unparsable => False
     | parsed q => q <> 0%Z
     end
  /\ match item_price post with
     | absent => True
     | unparsable => False
     | parsed p => PrimFloat.eqb p 0%float = false
     end.
Proof.
  intros (Hin & Hiq & Hip). rewrite ItemForm_valid.
  cbn [ItemForm_of ItemForm_name ItemForm_quantity ItemForm_price
       StringField data option_map].
  assert (Hs : forall n, DataRequired (Some n) = passes <-> strip n <> "").
  { intros n. rewrite DataRequired_str, present_iff. split.
    - intros (s & [= <-] & Hb). exact Hb.
    - eauto. }
  assert (Hz : forall q : Z, DataRequired (Some q) = passes <-> q <> 0%Z).
  { intros q. unfold DataRequired. cbn [truth blank_str Data_int].
    destruct (q =? 0)%Z eqn:E; cbn;
      [apply Z.eqb_eq in E | apply Z.eqb_neq in E]; split; congruence. }
  assert (Hf : forall p : float,
            DataRequired (Some p) = passes <-> PrimFloat.eqb p 0%float = false).
  { intros p. unfold DataRequired. cbn [truth blank_str Data_float].
    destruct (PrimFloat.eqb p 0%float); cbn; split; congruence. }
  destruct (item_name post) as [n |];
    destruct (item_quantity post) as [| | q];
    destruct (item_price post) as [| | p]; cbn [data IntegerField FloatField NumberField];
    rewrite ?Hs, ?Hz, ?Hf; intuition (discriminate || congruence).
Qed.

(** ** The further properties on the sample data *)

Lemma sample_items_ok : Forall item_ok (Item_table world_two_items).
Proof.
  repeat constructor; cbn; try discriminate; intros H; vm_compute in H;
    discriminate H.
Qed.

Lemma sample_ids_distinct : NoDup (map item_id (Item_table world_two_items)).
Proof. cbn. repeat constructor; cbn; intuition discriminate. Qed.

Lemma logged_in_client_stays_logged_in_witness :
  authenticated world_two_items = true
  /\ User_table (after (handle plain_generate plain_check plain_repr
       (register_request "salt" POST robert_registration) world_two_items))
     = [alice]
  /\ handle plain_generate plain_check plain_repr
       (register_request "salt" POST robert_registration) world_two_items
     = ([db_read Users], world_two_items, redirect url_for_index).
Proof.
  split; [reflexivity |].
  destruct (logged_in_client_stays_logged_in plain_generate plain_check plain_repr
              (register_request "salt" POST robert_registration) world_two_items
              eq_refl)
    as (_ & Hu & _ & _ & Hr & _); [discriminate |].
  split; [exact Hu | exact Hr].
Defined.

Lemma get_requests_do_not_write_witness :
  method_of (edit_item_request 1 GET rename_apples_post) = GET
  /\ Item_table (after (handle plain_generate plain_check plain_repr
       (edit_item_request 1 GET rename_apples_post) world_two_items))
     = [apples; pears].
Proof.
  split; [reflexivity |].
  apply (get_requests_do_not_write plain_generate plain_check plain_repr
           (edit_item_request 1 GET rename_apples_post) world_two_items eq_refl).
Defined.

Lemma bad_csrf_token_changes_nothing_witness :
  csrf_token_of (add_item_request POST forged_widget_post) = Some false
  /\ after (handle plain_generate plain_check plain_repr
       (add_item_request POST forged_widget_post) world_two_items)
     = world_two_items.
Proof.
  split; [reflexivity |].
  apply (bad_csrf_token_changes_nothing plain_generate plain_check plain_repr
           (add_item_request POST forged_widget_post) world_two_items eq_refl).
Defined.


Lemma user_table_invariants_witness :
  NoDup (map username (User_table world_alice))
  /\ NoDup (map user_id (User_table world_alice))
  /\ Forall user_ok (User_table world_alice)
  /\ NoDup (map username (User_table (after
       (handle plain_generate plain_check plain_repr
          (register_request "salt" POST robert_registration) world_alice)))).
Proof.
  assert (Hn : NoDup (map username (User_table world_alice))).
  { cbn. repeat constructor; cbn; tauto. }
  assert (Hi : NoDup (map user_id (User_table world_alice))).
  { cbn. repeat constructor; cbn; tauto. }
  assert (Hok : Forall user_ok (User_table world_alice)).
  { constructor; [| constructor]. split; [cbn; lia |].
    intros H; vm_compute in H; discriminate H. }
  split; [exact Hn |]. split; [exact Hi |]. split; [exact Hok |].
  apply (user_table_invariants plain_generate plain_check plain_repr
           (register_request "salt" POST robert_registration) world_alice
           Hn Hi Hok).
Defined.

Lemma item_table_invariant_witness :
  Forall item_ok (Item_table world_two_items)
  /\ Forall item_ok (Item_table (after
       (handle plain_generate plain_check plain_repr
          (edit_item_request 1 POST rename_apples_post) world_two_items))).
Proof.
  split; [exact sample_items_ok |].
  apply (item_table_invariant plain_generate plain_check plain_repr
           (edit_item_request 1 POST rename_apples_post) world_two_items
           sample_items_ok).
Defined.

Lemma logout_ends_the_session_witness :
  authenticated world_two_items = true
  /\ run logout world_two_items =
       ([db_read Users; flashed You_have_been_logged_out info],
        with_session world_two_items None, redirect url_for_login)
  /\ handle plain_generate plain_check plain_repr GET_index
       (with_session world_two_items None) =
       ([flashed Please_log_in_to_access_this_page message],
        with_session world_two_items None, redirect url_for_login).
Proof.
  split; [reflexivity |].
  destruct (logout_ends_the_session plain_generate plain_check plain_repr
              world_two_items eq_refl) as (Hrun & _ & _ & Hnext).
  split; [exact Hrun | apply Hnext; reflexivity].
Defined.

Lemma login_failure_is_uniform_witness :
  authenticated world_alice = false
  /\ run (login plain_check POST (alice_login "wrong")) world_alice =
       ([db_read Users; flashed Invalid_username_or_password danger],
        world_alice,
        render_template
          (login_html [("csrf_token", []); ("username", []); ("password", [])])).
Proof.
  split; [reflexivity |].
  apply (login_failure_is_uniform plain_check POST (alice_login "wrong")
           world_alice eq_refl eq_refl).
  intros usr p Hf Hp. cbn in Hf. injection Hf as <-. injection Hp as <-.
  reflexivity.
Defined.

Lemma register_creates_the_user_witness :
  authenticated world_alice = false
  /\ exists u p usr w1,
       register_username robert_registration = Some u
       /\ register_password robert_registration = Some p
       /\ usr = {| user_id := 2; username := u;
                   password_hash := plain_generate "salt" p |}
       /\ run (register plain_generate "salt" POST robert_registration) world_alice =
            ([db_read Users; db_write Users; flashed Registration_successful success],
             w1, redirect url_for_login)
       /\ User_table w1 = [alice; usr].
Proof.
  split; [reflexivity |].
  destruct (register_creates_the_user plain_generate "salt" POST
              robert_registration world_alice eq_refl eq_refl)
    as (u & p & usr & w1 & Hu & Hp & Husr & Hrun & Htab & _).
  { intros x [<- | []]. discriminate. }
  exists u, p, usr, w1. auto.
Defined.

Lemma registered_username_stays_taken_witness :
  run (register plain_generate "salt" POST alice_registration) empty_world =
    ([db_read Users; db_write Users; flashed Registration_successful success],
     world_alice, redirect url_for_login)
  /\ run (register plain_generate "pepper" POST alice_registration) world_alice =
       ([db_read Users; flashed Username_already_exists danger],
        world_alice, redirect url_for_register).
Proof.
  split; [reflexivity |].
  apply (registered_username_stays_taken plain_generate plain_check plain_repr
           empty_world world_alice world_alice "salt" POST alice_registration _
           eq_refl (reach_here plain_generate plain_check plain_repr world_alice)
           "pepper" POST alice_registration eq_refl);
    reflexivity.
Defined.

Lemma add_then_delete_restores_witness :
  authenticated world_two_items = true
  /\ item_csrf_valid widget_post = true
  /\ acceptable widget_post
  /\ db.bindable_int 5 = true
  /\ db.storable_float 2.5 = true
  /\ db.bindable_id 3 = true
  /\ exists l1 w1 it l2,
       run (add_item POST widget_post) world_two_items
         = (l1, w1, redirect url_for_index)
       /\ Item_table w1 = Item_table world_two_items ++ [it]
       /\ item_id it = 3%N
       /\ quantity it = 5%Z /\ price it = 2.5%float
       /\ run (delete_item (item_id it)) w1
            = (l2, world_two_items, redirect url_for_index).
Proof.
  assert (Ha : acceptable widget_post).
  { exists "Widget", 5%Z, 2.5%float. repeat split; discriminate. }
  split; [reflexivity |]. split; [reflexivity |]. split; [exact Ha |].
  do 3 (split; [reflexivity |]).
  apply (add_then_delete_restores world_two_items widget_post 5%Z 2.5%float
           eq_refl eq_refl Ha eq_refl eq_refl eq_refl eq_refl eq_refl).
Defined.

Lemma second_delete_is_not_found_witness :
  authenticated world_two_items = true
  /\ db.bindable_id 1 = true
  /\ exists l1 w1 r1,
       run (delete_item 1) world_two_items = (l1, w1, r1)
       /\ run (delete_item 1) w1 = (guard_log w1 ++ [db_read Items], w1, status 404)
       /\ forall m post,
            run (edit_item 1 m post) w1
              = (guard_log w1 ++ [db_read Items], w1, status 404).
Proof.
  split; [reflexivity |]. split; [reflexivity |].
  destruct (second_delete_is_not_found world_two_items 1 eq_refl)
    as (l1 & w1 & r1 & Hrun & Hfits & _).
  exists l1, w1, r1. split; [exact Hrun |]. apply Hfits. reflexivity.
Defined.

Lemma edit_is_idempotent_witness :
  authenticated world_two_items = true
  /\ validate_on_submit POST
       (ItemForm_errors (ItemForm_of (Some apples) rename_apples_post)) = true
  /\ db.bindable_id (item_id apples) = true
  /\ db.bindable_int 3 = true
  /\ db.storable_float 0.75 = true
  /\ exists l1 w1,
       run (edit_item 1 POST rename_apples_post) world_two_items
         = (l1, w1, redirect url_for_index)
       /\ run (edit_item 1 POST rename_apples_post) w1
            = (guard_log w1 ++
                 [db_read Items; flashed Item_updated_successfully success],
               w1, redirect url_for_index).
Proof.
  split; [reflexivity |]. split; [reflexivity |].
  do 3 (split; [reflexivity |]).
  apply (edit_is_idempotent world_two_items apples POST rename_apples_post
           3%Z 0.75%float
           eq_refl sample_ids_distinct (or_introl eq_refl) eq_refl
           eq_refl eq_refl eq_refl eq_refl eq_refl).
Defined.

Lemma edit_form_accepts_exactly_witness :
  item_ok apples
  /\ validate_on_submit POST
       (ItemForm_errors (ItemForm_of (Some apples) rename_apples_post)) = true.
Proof.
  assert (Hok : item_ok apples).
  { repeat split; cbn; discriminate. }
  split; [exact Hok |].
  apply (edit_form_accepts_exactly apples POST rename_apples_post Hok).
  repeat split; try reflexivity; discriminate.
Defined.

(** ** Logging in, then using a guarded route *)

(** X21. A successful login opens the guarded routes: when a client that
    was not logged in is answered by login with the redirect to the list,
    both tables are as they were, the session names a User of the table,
    and the list requested next is served, with the Item table, instead
    of the redirect to the login page. *)
Theorem login_opens_the_guarded_routes
  (check_password_hash : string -> string -> bool)
  (m : method) (post : LoginPost) (w w1 : World) (l : list effect) :
  authenticated w = false ->
  run (login check_password_hash m post) w = (l, w1, redirect url_for_index) ->
  User_table w1 = User_table w
  /\ Item_table w1 = Item_table w
  /\ (exists usr, In usr (User_table w) /\ session_user_id w1 = Some (user_id usr)
                  /\ Some (username usr) = login_username post)
  /\ authenticated w1 = true
  /\ run index w1 =
       ([db_read Users; db_read Items], w1,
        render_template (index_html (Item_table w))).
Proof.
  intros Hanon Hrun. rewrite login_run, Hanon in Hrun.
  destruct (validate_on_submit m _); [| discriminate].
  destruct (find _ (User_table w)) as [usr |] eqn:Hf; [| discriminate].
  destruct (login_password post) as [p |]; [| discriminate].
  destruct (check_password_hash _ _); [| discriminate].
  injection Hrun as _ <-.
  apply find_some in Hf. destruct Hf as [Hin Hname].
  destruct (find_finds (fun u => (user_id u =? user_id usr)%N) (User_table w) usr
              Hin (N.eqb_refl _)) as [v Hv].
  assert (Hauth : authenticated (with_session w (Some (user_id usr))) = true).
  { unfold authenticated, current_user_of. cbn [with_session session_user_id User_table].
    rewrite Hv. reflexivity. }
  do 2 (split; [reflexivity |]).
  split.
  { exists usr. repeat split; auto.
    unfold eq_opt_str in Hname. destruct (login_username post) as [s |];
      [| discriminate]. apply String.eqb_eq in Hname. congruence. }
  split; [exact Hauth |].
  rewrite index_run, Hauth. reflexivity.
Qed.

Lemma login_opens_the_guarded_routes_witness :
  authenticated world_alice = false
  /\ run (login plain_check POST (alice_login "secret")) world_alice =
       ([db_read Users; flashed Logged_in_successfully success],
        with_session world_alice (Some 1%N), redirect url_for_index)
  /\ run index (with_session world_alice (Some 1%N)) =
       ([db_read Users; db_read Items], with_session world_alice (Some 1%N),
        render_template (index_html [])).
Proof.
  split; [reflexivity |]. split; [reflexivity |].
  apply (login_opens_the_guarded_routes plain_check POST (alice_login "secret")
           world_alice (with_session world_alice (Some 1%N)) _ eq_refl eq_refl).
Defined.
